(** * Caltrain Quick: the schedule compactor and the departure query engine

    A shallow embedding of the pure functions of [tests.js] (the query
    engine extracted from the web page), of the batch script
    [process-gtfs.js] (the feed compactor with the two-way service type)
    and of the compactor script with the three-way service type, the
    script that follows the icon generator in [generate-icons.js], with
    the properties of the specification stated over them.

    Conventions of the embedding.
    - A JavaScript number that the code only uses as an integer is a [Z];
      [%] is the truncating remainder [Z.rem], [Math.floor (a / b)] for a
      positive [b] is [Z.div]. A [Number] holds the integers up to
      [MAX_SAFE_INTEGER] exactly and these operations are exact on them; a
      statement about integers of any size carries that bound.
    - A string is the sequence of the bytes of its UTF-8 encoding: the
      characters that the code looks for (comma, colon, line feed, the
      digits) are single bytes, and a white space character beyond ASCII
      is a sequence of two or three bytes.
    - A JavaScript object used as a dictionary is a [gmap string _]. The
      two agree on the keys that are not names of members of
      [Object.prototype] ([plainKey]); the identifiers of a feed are taken
      to be such keys, which [plainIds] says of a feed.
    - The departure times that the compactor reads are taken in the form
      of the feed format, an hour and a minute field of decimal digits,
      which [clockTimes] says of a feed; on other texts the code computes
      with fractions, infinities or [NaN], which the embedding leaves
      out.
    - A [Set] of strings is a [gset string].
    - A departure tuple [[minute, trainNum, routeType, serviceType]] is the
      record [Departure]. *)

From Stdlib Require Import ZArith Lia List Sorting.Sorted.
From Stdlib Require Import Strings.String Strings.Ascii DecimalString.
From stdpp Require Import base decidable option list sorting strings gmap.

Local Open Scope string_scope.
Local Open Scope Z_scope.

(** ** Departure tuples *)

Module Tuple.

(** [[t.t, t.n, routeTypeMap[t.r] ?? 0, t.s === 'weekday' ? 0 : 1]], read
    positionally by the query engine as [[time, trainNum, , svc]]. *)
Record Departure : Type := mkDeparture {
  minute : Z;
  trainNumber : string;
  routeType : Z;
  serviceType : Z
}.

#[global] Instance Departure_eq_dec : EqDecision Departure.
Proof. solve_decision. Defined.

(** Buckets are ordered by the [minute] field alone. *)
Definition minute_le (a b : Departure) : Prop := minute a ≤ minute b.

#[global] Instance minute_le_dec : RelDecision minute_le.
Proof. intros a b. unfold minute_le. apply _. Defined.

End Tuple.
Export Tuple.

(** ** JavaScript values and string primitives used by the code *)

Module Js.

(** The values found in a holiday map: the numbers [1] and [2] read by the
    query engine, and the flag [true] written by [process-gtfs.js]. *)
Inductive JsVal : Type :=
  | JNum (z : Z)
  | JBool (b : bool).

#[global] Instance JsVal_eq_dec : EqDecision JsVal.
Proof. solve_decision. Defined.

(** [Number.MAX_SAFE_INTEGER]: up to it, in absolute value, a [Number]
    holds every integer, and the sum, the product, the remainder and the
    floor of the quotient of two integers are exact when they stay in that
    range. *)
Definition MAX_SAFE_INTEGER : Z := 2 ^ 53 - 1.

(** The names of the members of [Object.prototype], which a plain object
    inherits: a lookup of one of them in an object that has no such
    property of its own gives the inherited member and not [undefined],
    and an assignment to [__proto__] stores no property. *)
Definition objectPrototypeNames : list string :=
  [ "constructor"; "__defineGetter__"; "__defineSetter__"; "hasOwnProperty";
    "__lookupGetter__"; "__lookupSetter__"; "isPrototypeOf";
    "propertyIsEnumerable"; "toString"; "valueOf"; "__proto__";
    "toLocaleString" ].

(** A key on which a plain object behaves as a finite map. *)
Definition plainKey (k : string) : Prop := k ∉ objectPrototypeNames.

#[global] Instance plainKey_dec k : Decision (plainKey k).
Proof. unfold plainKey. apply _. Defined.

(** [z.toString()] for an integer. *)
Definition numberToString (z : Z) : string :=
  NilZero.string_of_int (Z.to_int z).

(** [padString] repeated and truncated to [k] characters. *)
Fixpoint padding (k : nat) (padString cur : string) : string :=
  match k with
  | O => ""
  | S k' =>
      match cur with
      | String c r => String c (padding k' padString r)
      | EmptyString =>
          match padString with
          | String c r => String c (padding k' padString r)
          | EmptyString => ""
          end
      end
  end.

(** [s.padStart(targetLength, padString)] *)
Definition padStart (targetLength : nat) (padString s : string) : string :=
  padding (targetLength - String.length s) padString padString ++ s.

(** [s.split(sep)] for a one-character separator. *)
Fixpoint split (sep : ascii) (s : string) : list string :=
  match s with
  | EmptyString => [""]
  | String c r =>
      if Ascii.eqb c sep then "" :: split sep r
      else match split sep r with
           | w :: ws => String c w :: ws
           | [] => [String c ""]
           end
  end.

(** [s.replace(/c/g, '')]: every occurrence of the character is removed. *)
Fixpoint removeAll (c : ascii) (s : string) : string :=
  match s with
  | EmptyString => ""
  | String a r => if Ascii.eqb a c then removeAll c r else String a (removeAll c r)
  end.

(** The white space that [trim], [parseInt] and [Number] skip: the code
    points of [WhiteSpace] and [LineTerminator]. Those of one byte are
    U+0009 to U+000D and U+0020. *)
Definition isWhiteSpace (c : ascii) : bool :=
  let k := nat_of_ascii c in
  ((9 <=? k) && (k <=? 13))%nat || (k =? 32)%nat.

(** U+00A0, the bytes C2 A0. *)
Definition isWhiteSpace2 (c1 c2 : ascii) : bool :=
  ((nat_of_ascii c1 =? 194) && (nat_of_ascii c2 =? 160))%nat.

(** U+1680 (E1 9A 80); U+2000 to U+200A, U+2028, U+2029 and U+202F
    (E2 80 80 to E2 80 8A, E2 80 A8, E2 80 A9, E2 80 AF); U+205F
    (E2 81 9F); U+3000 (E3 80 80); U+FEFF (EF BB BF). *)
Definition isWhiteSpace3 (c1 c2 c3 : ascii) : bool :=
  let k1 := nat_of_ascii c1 in
  let k2 := nat_of_ascii c2 in
  let k3 := nat_of_ascii c3 in
  (((k1 =? 225) && (k2 =? 154) && (k3 =? 128))
   || ((k1 =? 226) && (k2 =? 128)
       && (((128 <=? k3) && (k3 <=? 138))
           || (k3 =? 168) || (k3 =? 169) || (k3 =? 175)))
   || ((k1 =? 226) && (k2 =? 129) && (k3 =? 159))
   || ((k1 =? 227) && (k2 =? 128) && (k3 =? 128))
   || ((k1 =? 239) && (k2 =? 187) && (k3 =? 191)))%nat.

Fixpoint trimStart (s : string) : string :=
  match s with
  | String c1 r1 =>
      if isWhiteSpace c1 then trimStart r1
      else match r1 with
           | String c2 r2 =>
               if isWhiteSpace2 c1 c2 then trimStart r2
               else match r2 with
                    | String c3 r3 =>
                        if isWhiteSpace3 c1 c2 c3 then trimStart r3 else s
                    | EmptyString => s
                    end
           | EmptyString => s
           end
  | EmptyString => ""
  end.

(** The suffix of white space is removed from a text that is not white
    space throughout. *)
Fixpoint trimEnd (s : string) : string :=
  match s with
  | EmptyString => ""
  | String c r =>
      if decide (trimStart s = "") then "" else String c (trimEnd r)
  end.

(** [s.trim()] *)
Definition trim (s : string) : string := trimEnd (trimStart s).

(** The value of a character as a digit of the given radix. *)
Definition digitValue (radix : Z) (c : ascii) : option Z :=
  let k := Z.of_nat (nat_of_ascii c) in
  let v := if decide (48 ≤ k ≤ 57) then Some (k - 48)
           else if decide (97 ≤ k ≤ 122) then Some (k - 87)
           else if decide (65 ≤ k ≤ 90) then Some (k - 55)
           else None in
  match v with
  | Some d => if decide (d < radix) then Some d else None
  | None => None
  end.

(** The value of the longest prefix of digits; [None] when it is empty. *)
Fixpoint digitsPrefix (radix : Z) (s : string) (acc : option Z) : option Z :=
  match s with
  | String c r =>
      match digitValue radix c with
      | Some d => digitsPrefix radix r (Some (default 0 acc * radix + d))
      | None => acc
      end
  | EmptyString => acc
  end.

(** [parseInt(s)] without a radix argument; [None] stands for [NaN]. *)
Definition parseInt (s : string) : option Z :=
  let s1 := trimStart s in
  let '(sign, s2) :=
    match s1 with
    | String "-"%char r => (-1, r)
    | String "+"%char r => (1, r)
    | _ => (1, s1)
    end in
  let '(radix, s3) :=
    match s2 with
    | String "0"%char (String "x"%char r) => (16, r)
    | String "0"%char (String "X"%char r) => (16, r)
    | _ => (10, s2)
    end in
  Z.mul sign <$> digitsPrefix radix s3 None.

Fixpoint allDecimalDigits (s : string) : bool :=
  match s with
  | EmptyString => true
  | String c r => bool_decide (is_Some (digitValue 10 c)) && allDecimalDigits r
  end.

(** [Number(s)] on the strings made of decimal digits only, the empty
    string included ([Number('') = 0]). [None] is not a failure of the
    code: it marks a string outside of the embedding, which JavaScript
    reads as [NaN], as a signed number, as a fraction or through another
    literal syntax. *)
Definition toNumber (s : string) : option Z :=
  if allDecimalDigits s then Some (default 0 (digitsPrefix 10 s None)) else None.

End Js.
Export Js.

(** ** Dates: the [Date] methods used by the query engine *)

Module JsDate.

(** A [Date] is its time value, milliseconds since the epoch in UTC. A time
    zone gives, for a UTC instant, the offset of local time in
    milliseconds: [LocalTime(t) = t + tz t]. *)
Definition TimeZone : Type := Z → Z.

Definition msPerMinute : Z := 60000.
Definition msPerHour : Z := 3600000.
Definition msPerDay : Z := 86400000.

(** Time values outside of +-8.64e15 make an invalid [Date]. *)
Definition timeClip (t : Z) : option Z :=
  if decide (Z.abs t ≤ 8640000000000000) then Some t else None.

Definition localTime (tz : TimeZone) (t : Z) : Z := t + tz t.

(** [getHours()], [getMinutes()] and [getDay()] read local time. *)
Definition getHours (tz : TimeZone) (t : Z) : Z :=
  (localTime tz t / msPerHour) mod 24.

Definition getMinutes (tz : TimeZone) (t : Z) : Z :=
  (localTime tz t / msPerMinute) mod 60.

(** Day 0 of the epoch was a Thursday; 0 is Sunday and 6 is Saturday. *)
Definition weekDay (t : Z) : Z := (t / msPerDay + 4) mod 7.

Definition getDay (tz : TimeZone) (t : Z) : Z := weekDay (localTime tz t).

(** Year, month (1-12) and day of month of a day number counted from the
    epoch, in the proleptic Gregorian calendar. *)
Definition civilFromDays (days : Z) : Z * Z * Z :=
  let z := days + 719468 in
  let era := z / 146097 in
  let doe := z - era * 146097 in
  let yoe := (doe - doe / 1460 + doe / 36524 - doe / 146096) / 365 in
  let doy := doe - (365 * yoe + yoe / 4 - yoe / 100) in
  let mp := (5 * doy + 2) / 153 in
  let d := doy - (153 * mp + 2) / 5 + 1 in
  let m := if decide (mp < 10) then mp + 3 else mp - 9 in
  let y := yoe + era * 400 + (if decide (m ≤ 2) then 1 else 0) in
  (y, m, d).

(** The day number of a calendar date (the inverse of [civilFromDays]). *)
Definition daysFromCivil (y m d : Z) : Z :=
  let y' := if decide (m ≤ 2) then y - 1 else y in
  let era := y' / 400 in
  let yoe := y' - era * 400 in
  let mp := if decide (m > 2) then m - 3 else m + 9 in
  let doy := (153 * mp + 2) / 5 + d - 1 in
  let doe := yoe * 365 + yoe / 4 - yoe / 100 + doy in
  era * 146097 + doe - 719468.

Definition pad (width : nat) (z : Z) : string :=
  padStart width "0" (numberToString z).

(** The date part of [toISOString()], which is in UTC: [YYYY-MM-DD], or
    the expanded [+YYYYYY-MM-DD] outside of the years 0 to 9999. *)
Definition isoDate (t : Z) : string :=
  let '(y, m, d) := civilFromDays (t / msPerDay) in
  let year := if decide (0 ≤ y ≤ 9999) then pad 4 y
              else (if decide (y < 0) then "-" else "+") ++ pad 6 (Z.abs y) in
  year ++ "-" ++ pad 2 m ++ "-" ++ pad 2 d.

(** [now.toISOString().slice(0, 10).replace(/-/g, '')] *)
Definition dateStr (t : Z) : string :=
  removeAll "-"%char (substring 0 10 (isoDate t)).

(** The time value of the wall-clock time [y-m-d hh:mm] of a zone whose
    offset is the constant [off], as [new Date('y-m-dThh:mm:00')] gives. *)
Definition fixedZone (off : Z) : TimeZone := λ _, off.

Definition localInstant (off : Z) (y m d hh mm : Z) : Z :=
  daysFromCivil y m d * msPerDay + hh * msPerHour + mm * msPerMinute - off.

(** The local calendar date of an instant, written like [dateStr]. *)
Definition localDateStr (tz : TimeZone) (t : Z) : string :=
  dateStr (localTime tz t).

End JsDate.
Export JsDate.

(** ** The query engine ([tests.js]) *)

Module Query.

(** [const endOfDay = 24 * 60 + 120; // Until 2am] *)
Definition endOfDay : Z := 24 * 60 + 120.

(** [new Set(destTrains.filter(t => t[3] === serviceFilter).map(t => t[1]))] *)
Definition destTrainNums (destTrains : list Departure) (serviceFilter : Z)
  : gset string :=
  list_to_set
    (trainNumber <$> filter (λ t, serviceType t = serviceFilter) destTrains).

(** [originTrains.filter(t => svc === serviceFilter && time >= currentMinutes
      && time <= endOfDay && destTrainNums.has(trainNum))] *)
Definition filterTrainsByDestination
    (originTrains destTrains : list Departure)
    (serviceFilter currentMinutes : Z) : list Departure :=
  let nums := destTrainNums destTrains serviceFilter in
  filter (λ t, serviceType t = serviceFilter
               ∧ currentMinutes ≤ minute t
               ∧ minute t ≤ endOfDay
               ∧ trainNumber t ∈ nums)
         originTrains.

(** The sample data of the test suite. *)
Definition sampleOriginTrains : list Departure :=
  [ mkDeparture 310 "101" 0 0;
    mkDeparture 344 "102" 0 0;
    mkDeparture 400 "201" 0 1;
    mkDeparture 450 "202" 0 1;
    mkDeparture 500 "M101" 0 2;
    mkDeparture 1454 "664" 0 1 ].

Definition sampleDestTrains : list Departure :=
  [ mkDeparture 330 "101" 0 0;
    mkDeparture 420 "201" 0 1;
    mkDeparture 520 "M101" 0 2;
    mkDeparture 1474 "664" 0 1 ].

(** [formatTime(minutes)], for an integer of the safe range: there
    [Math.floor(minutes / 60)] is the floor of the exact quotient. *)
Definition formatTime (minutes : Z) : string :=
  let h := Z.rem (minutes / 60) 24 in
  let m := Z.rem minutes 60 in
  let ampm := if decide (h >= 12) then "pm" else "am" in
  let h := if decide (Z.rem h 12 = 0) then 12 else Z.rem h 12 in
  numberToString h ++ ":" ++ padStart 2 "0" (numberToString m) ++ ampm.

(** [getCurrentMinutes(hoursOverride = null, minutesOverride = null)];
    [now] is the time value of [new Date()] and [None] is [null]. *)
Definition getCurrentMinutes (tz : TimeZone) (now : Z)
    (hoursOverride minutesOverride : option Z) : Z :=
  let hours := match hoursOverride with Some h => h | None => getHours tz now end in
  let mins := match minutesOverride with Some m => m | None => getMinutes tz now end in
  let totalMins := hours * 60 + mins in
  if decide (totalMins < 180) then totalMins + 24 * 60 else totalMins.

(** [getServiceType(date, holidays = {})]; [date] is the time value of
    [new Date(date)], and [None] is the [RangeError] that [toISOString]
    throws on an invalid date. *)
Definition getServiceType (tz : TimeZone) (date : Z)
    (holidays : gmap string JsVal) : option string :=
  now ← timeClip date;
  now ← (if decide (getHours tz now < 3)
         then timeClip (now - 24 * 60 * 60 * 1000) else Some now);
  let dateStr := dateStr now in
  let day := getDay tz now in
  let holidayType := holidays !! dateStr in
  if decide (holidayType = Some (JNum 2)) then Some "modified"
  else if decide (holidayType = Some (JNum 1)) then Some "weekend"
  else if decide (day = 0 ∨ day = 6) then Some "weekend"
  else Some "weekday".

(** The holiday map of the test suite. *)
Definition testHolidays : gmap string JsVal :=
  <["20260119" := JNum 2]> (<["20260101" := JNum 1]>
  (<["20251225" := JNum 1]> (<["20251224" := JNum 2]> ∅))).

(** An origin list that is not in ascending order, the 5:00 train before
    the 4:00 train, and a destination list with both trains. *)
Definition lateFirstOriginTrains : list Departure :=
  [ mkDeparture 300 "101" 0 0; mkDeparture 240 "103" 0 0 ].

Definition lateFirstDestTrains : list Departure :=
  [ mkDeparture 330 "101" 0 0; mkDeparture 270 "103" 0 0 ].

(** A destination list with other minutes and route types, another order
    and a repeated entry, listing the same trains as [sampleDestTrains]. *)
Definition shuffledDestTrains : list Departure :=
  [ mkDeparture 9 "664" 3 1;
    mkDeparture 1 "M101" 2 2;
    mkDeparture 7 "201" 1 1;
    mkDeparture 2000 "101" 0 0;
    mkDeparture 9 "664" 3 1 ].

End Query.
Export Query.

(** ** The feed compactor ([process-gtfs.js]) *)

Module Compactor.

(** The rows that [parseCSV] returns, for files whose header line names
    the columns that the script reads: every field is a string, a missing
    one is the empty string. Only the fields that the script reads (apart
    from those of the station list) are kept. *)
Record Stop : Type := mkStop {
  s_stop_id : string;
  s_parent_station : string
}.

Record Trip : Type := mkTrip {
  t_trip_id : string;
  t_service_id : string;
  t_direction_id : string;
  t_trip_headsign : string;
  t_route_id : string;
  t_trip_short_name : string
}.

Record Route : Type := mkRoute {
  r_route_id : string;
  r_route_short_name : string;
  r_route_color : string
}.

Record CalendarRow : Type := mkCalendarRow {
  c_service_id : string;
  c_monday : string;
  c_saturday : string;
  c_start_date : string;
  c_end_date : string
}.

Record CalendarDate : Type := mkCalendarDate {
  cd_service_id : string;
  cd_date : string;
  cd_exception_type : string;
  cd_holiday_name : string
}.

Record StopTime : Type := mkStopTime {
  st_trip_id : string;
  st_stop_id : string;
  st_departure_time : string
}.

Record Feed : Type := mkFeed {
  stops : list Stop;
  trips : list Trip;
  stopTimes : list StopTime;
  calendar : list CalendarRow;
  calendarDates : list CalendarDate;
  routes : list Route
}.

(** [stopToStation]: only a non-empty [parent_station] is recorded. This
    table and the following ones are plain objects; they are the maps
    below on the identifiers that are plain keys. *)
Definition stopToStation (stops : list Stop) : gmap string string :=
  foldl (λ m s, if decide (s_parent_station s ≠ "")
                then <[s_stop_id s := s_parent_station s]> m else m)
        ∅ stops.

(** [direction] is [parseInt(t.direction_id)], [None] being [NaN]. *)
Record TripInfo : Type := mkTripInfo {
  serviceId : string;
  direction : option Z;
  headsign : string;
  routeId : string;
  trainNum : string
}.

Definition tripInfo (trips : list Trip) : gmap string TripInfo :=
  foldl (λ m t, <[t_trip_id t :=
                    {| serviceId := t_service_id t;
                       direction := parseInt (t_direction_id t);
                       headsign := t_trip_headsign t;
                       routeId := t_route_id t;
                       trainNum := t_trip_short_name t |}]> m)
        ∅ trips.

Record RouteInfo : Type := mkRouteInfo {
  name : string;
  color : string
}.

Definition routeInfo (routes : list Route) : gmap string RouteInfo :=
  foldl (λ m r, <[r_route_id r :=
                    {| name := r_route_short_name r;
                       color := r_route_color r |}]> m)
        ∅ routes.

(** [services]: [{weekday: c.monday === '1', weekend: c.saturday === '1'}] *)
Record Service : Type := mkService {
  weekday : bool;
  weekend : bool;
  startDate : string;
  endDate : string
}.

Definition serviceOfRow (c : CalendarRow) : Service :=
  {| weekday := bool_decide (c_monday c = "1");
     weekend := bool_decide (c_saturday c = "1");
     startDate := c_start_date c;
     endDate := c_end_date c |}.

Definition services (calendar : list CalendarRow) : gmap string Service :=
  foldl (λ m c, <[c_service_id c := serviceOfRow c]> m) ∅ calendar.

(** [service?.weekday ? 'weekday' : (service?.weekend ? 'weekend' : 'holiday')] *)
Definition classify (service : option Service) : string :=
  match service with
  | Some svc => if weekday svc then "weekday"
                else if weekend svc then "weekend" else "holiday"
  | None => "holiday"
  end.

(** [holidays]: per date, per service, the last exception record read. *)
Record Exception : Type := mkException {
  type : option Z;
  holidayName : string
}.

Definition exceptionOfRow (cd : CalendarDate) : Exception :=
  {| type := parseInt (cd_exception_type cd);
     holidayName := cd_holiday_name cd |}.

Definition holidays (calendarDates : list CalendarDate)
  : gmap string (gmap string Exception) :=
  foldl (λ h cd,
           let h := match h !! cd_date cd with
                    | Some _ => h
                    | None => <[cd_date cd := ∅]> h
                    end in
           <[cd_date cd :=
               <[cd_service_id cd := exceptionOfRow cd]>
                 (default ∅ (h !! cd_date cd))]> h)
        ∅ calendarDates.

(** An entry of a bucket: [{t, n, r, s, h}]. *)
Record Entry : Type := mkEntry {
  t : Z;
  n : string;
  r : string;
  s : string;
  h : string
}.

#[global] Instance Entry_eq_dec : EqDecision Entry.
Proof. solve_decision. Defined.

Inductive Direction : Type := northbound | southbound.

Record Buckets (A : Type) : Type := mkBuckets {
  north : list A;
  south : list A
}.
Arguments mkBuckets {A} _ _.
Arguments north {A} _.
Arguments south {A} _.

Definition bucket {A} (dir : Direction) (b : Buckets A) : list A :=
  match dir with northbound => north b | southbound => south b end.

Definition mapBuckets {A B} (f : list A → list B) (b : Buckets A) : Buckets B :=
  {| north := f (north b); south := f (south b) |}.

(** [b[direction].push(e)] *)
Definition push {A} (dir : Direction) (e : A) (b : Buckets A) : Buckets A :=
  match dir with
  | northbound => {| north := north b ++ [e]; south := south b |}
  | southbound => {| north := north b; south := south b ++ [e] |}
  end.

(** [const [h, m] = st.departure_time.split(':').map(Number);
     const minutes = h * 60 + m;]
    The value is given for the texts with an hour and a minute field of
    decimal digits. [None] is not a failure of the code: it marks a text
    outside of the embedding, for which the code stores [NaN] (a missing
    minute, a field that is not a number) or a number that [toNumber]
    leaves out. *)
Definition parseMinutes (departure_time : string) : option Z :=
  match split ":"%char departure_time with
  | hh :: mm :: _ =>
      h ← toNumber hh; m ← toNumber mm; Some (h * 60 + m)
  | _ => None
  end.

Section WithTables.

Variable feed : Feed.

(** The body of [stopTimes.forEach]. The result is [None] when the
    departure time of a record that is not skipped lies outside the domain
    of [parseMinutes]: the run is then outside of the embedding (the
    script itself goes on, with a time that is not an integer). *)
Definition processStopTime (schedule : gmap string (Buckets Entry))
    (st : StopTime) : option (gmap string (Buckets Entry)) :=
  match tripInfo (trips feed) !! st_trip_id st with
  | None => Some schedule
  | Some trip =>
      match stopToStation (stops feed) !! st_stop_id st with
      | None => Some schedule
      | Some stationId =>
          if decide (stationId = "") then Some schedule else
          let dir := if decide (direction trip = Some 0)
                     then northbound else southbound in
          let service := services (calendar feed) !! serviceId trip in
          let serviceType := classify service in
          let buckets := default (mkBuckets [] []) (schedule !! stationId) in
          minutes ← parseMinutes (st_departure_time st);
          let routeName :=
            match routeInfo (routes feed) !! routeId trip with
            | Some ri => if decide (name ri = "") then "Local" else name ri
            | None => "Local"
            end in
          Some (<[stationId :=
                    push dir {| t := minutes;
                                n := trainNum trip;
                                r := routeName;
                                s := serviceType;
                                h := headsign trip |} buckets]> schedule)
      end
  end.

Fixpoint forEachStopTime (sts : list StopTime)
    (schedule : gmap string (Buckets Entry))
  : option (gmap string (Buckets Entry)) :=
  match sts with
  | [] => Some schedule
  | st :: rest =>
      schedule ← processStopTime schedule st; forEachStopTime rest schedule
  end.

End WithTables.

(** The entries that the body of [forEach] pushes for a record. *)
Definition pushedBy (feed : Feed) (st : StopTime) (stationId : string)
    (dir : Direction) (e : Entry) : Prop :=
  ∃ trip,
    tripInfo (trips feed) !! st_trip_id st = Some trip
    ∧ stopToStation (stops feed) !! st_stop_id st = Some stationId
    ∧ dir = (if decide (direction trip = Some 0) then northbound else southbound)
    ∧ parseMinutes (st_departure_time st) = Some (t e)
    ∧ n e = trainNum trip
    ∧ s e = classify (services (calendar feed) !! serviceId trip).

(** Every entry of the schedule was pushed for one of the records [all]. *)
Definition filledFrom (feed : Feed) (all : list StopTime)
    (schedule : gmap string (Buckets Entry)) : Prop :=
  ∀ stationId b dir e,
    schedule !! stationId = Some b → e ∈ bucket dir b →
    ∃ st, st ∈ all ∧ pushedBy feed st stationId dir e.

(** [arr.sort((a, b) => a.t - b.t)]: [Array.prototype.sort] is stable, and
    on integer times the comparator is a total preorder, so the result is
    the stable sort on the time: the entries in ascending time, those of
    equal time in their order of arrival. A time that is [NaN] makes the
    comparator inconsistent and the order of the result a matter of the
    engine; the type of [t] leaves such buckets out. *)
Fixpoint insertByTime (x : Entry) (l : list Entry) : list Entry :=
  match l with
  | [] => [x]
  | y :: l' => if decide (t x ≤ t y) then x :: l else y :: insertByTime x l'
  end.

Definition sortByTime (l : list Entry) : list Entry :=
  foldr insertByTime [] l.

(** The callback of the duplicate filter:
    [(item, idx, arr) => idx === 0 || item.t !== arr[idx-1].t
                         || item.n !== arr[idx-1].n].
    For [idx > 0] the index [idx-1] is in range; the last branch is not
    reached. *)
Definition keepAt (arr : list Entry) (idx : nat) (item : Entry) : bool :=
  bool_decide (idx = 0%nat)
  || match arr !! (idx - 1)%nat with
     | Some p => bool_decide (t item ≠ t p ∨ n item ≠ n p)
     | None => true
     end.

(** [arr.filter(callback)]: the callback sees each element with its index
    and the whole array. *)
Fixpoint filterFrom (arr : list Entry) (idx : nat) (rest : list Entry)
  : list Entry :=
  match rest with
  | [] => []
  | item :: rest' =>
      (if keepAt arr idx item then [item] else [])
        ++ filterFrom arr (S idx) rest'
  end.

Definition dedupe (arr : list Entry) : list Entry := filterFrom arr 0 arr.

(** The same filter as a recursion that carries [arr[idx-1]], the
    element before [item] in the sorted array, kept or not. *)
Fixpoint dedupeFrom (prev : option Entry) (arr : list Entry) : list Entry :=
  match arr with
  | [] => []
  | item :: rest =>
      let keep := match prev with
                  | None => true
                  | Some p => bool_decide (t item ≠ t p ∨ n item ≠ n p)
                  end in
      (if keep then [item] else []) ++ dedupeFrom (Some item) rest
  end.

Definition sortAndDedupe (schedule : gmap string (Buckets Entry))
  : gmap string (Buckets Entry) :=
  mapBuckets (λ l, dedupe (sortByTime l)) <$> schedule.

(** The order of the sort. *)
Definition time_le (a b : Entry) : Prop := t a ≤ t b.

(** Two entries that the duplicate filter tells apart. *)
Definition distinctKey (a b : Entry) : Prop := ¬ (t b = t a ∧ n b = n a).

(** [routeTypeMap] *)
Definition routeTypeMap : gmap string Z :=
  <["Local Weekday" := 0]> (<["Local Weekend" := 0]> (<["Local" := 0]>
  (<["Limited" := 1]> (<["Express" := 2]> (<["South County" := 3]> ∅))))).

(** [[t.t, t.n, routeTypeMap[t.r] ?? 0, t.s === 'weekday' ? 0 : 1]] *)
Definition compactEntry (e : Entry) : Departure :=
  {| minute := t e;
     trainNumber := n e;
     routeType := default 0 (routeTypeMap !! r e);
     serviceType := if decide (s e = "weekday") then 0 else 1 |}.

Definition compactSchedule (schedule : gmap string (Buckets Entry))
  : gmap string (Buckets Departure) :=
  mapBuckets (fmap compactEntry) <$> schedule.

(** [Object.values(holidays[date]).some(h => h.type === 2)] *)
Definition hasWeekdayRemoved (exceptions : gmap string Exception) : Prop :=
  Exists (λ e, type e = Some 2) (snd <$> map_to_list exceptions).

#[global] Instance hasWeekdayRemoved_dec ex : Decision (hasWeekdayRemoved ex).
Proof. unfold hasWeekdayRemoved. apply _. Defined.

(** [compactHolidays]: [compactHolidays[date] = true] *)
Definition compactHolidays (holidays : gmap string (gmap string Exception))
  : gmap string JsVal :=
  omap (λ exceptions, if decide (hasWeekdayRemoved exceptions)
                      then Some (JBool true) else None) holidays.

(** The emitted document, without the station list. [validFrom] and
    [validTo] are [undefined] for an empty calendar. *)
Record Snapshot : Type := mkSnapshot {
  snap_schedule : gmap string (Buckets Departure);
  snap_holidays : gmap string JsVal;
  validFrom : option string;
  validTo : option string
}.

(** The document of [process-gtfs.js]; [None] for a feed outside of the
    embedding (see [processStopTime]). *)
Definition compact (feed : Feed) : option Snapshot :=
  schedule ← forEachStopTime feed (stopTimes feed) ∅;
  Some {| snap_schedule := compactSchedule (sortAndDedupe schedule);
          snap_holidays := compactHolidays (holidays (calendarDates feed));
          validFrom := c_start_date <$> head (calendar feed);
          validTo := c_end_date <$> head (calendar feed) |}.

(** A bucket of the emitted schedule; a station that is not a key has none. *)
Definition snapshotBucket (snap : Snapshot) (stationId : string)
    (dir : Direction) : list Departure :=
  match snap_schedule snap !! stationId with
  | Some b => bucket dir b
  | None => []
  end.

End Compactor.
Export Compactor.

(** ** The contracts in the words of the specification *)

Module Contract.

(** The contract of [queryDepartures] in the words of the specification:
    a train stops at the destination when its number appears there under
    the requested service type. *)
Definition stopsAt (destTrains : list Departure) (svc : Z) (n : string) : Prop :=
  Exists (λ e, serviceType e = svc ∧ trainNumber e = n) destTrains.

#[global] Instance stopsAt_dec dest svc n : Decision (stopsAt dest svc n).
Proof. unfold stopsAt. apply _. Defined.

Definition queryDepartures_spec
    (origin dest : list Departure) (svc now : Z) : list Departure :=
  filter (λ d, serviceType d = svc
               ∧ minute d >= now
               ∧ minute d ≤ 1560
               ∧ stopsAt dest svc (trainNumber d))
         origin.

(** The clock format. *)
Definition digitChar (d : Z) : ascii := ascii_of_nat (48 + Z.to_nat d).

(** Two decimal digits, zero-padded. *)
Definition twoDigits (z : Z) : string :=
  String (digitChar (z / 10)) (String (digitChar (z mod 10)) "").

(** [displayHour = floor(minute/60) mod 24]; 12-hour format with am/pm;
    hour 0 displays as 12am, hour 12 as 12pm; minutes on two digits. *)
Definition formatClockTime_spec (minute : Z) : string :=
  let displayHour := (minute / 60) mod 24 in
  let hour12 := if decide (displayHour = 0) then 12
                else if decide (displayHour ≤ 12) then displayHour
                else displayHour - 12 in
  numberToString hour12 ++ ":" ++ twoDigits (minute mod 60)
    ++ (if decide (displayHour < 12) then "am" else "pm").

(** The service-day rule in the words of the specification: before 3:00
    local time the previous calendar date is classified; a date is looked
    up in the holiday map first, and is otherwise Weekend on Saturday and
    Sunday and Weekday on the other days. [day] is a local day number. *)
Definition dateKey (day : Z) : string :=
  let '(y, m, d) := civilFromDays day in pad 4 y ++ pad 2 m ++ pad 2 d.

Definition classifyDate_spec (holidays : gmap string JsVal) (day : Z) : string :=
  let override := holidays !! dateKey day in
  if decide (override = Some (JNum 2)) then "modified"
  else if decide (override = Some (JNum 1)) then "weekend"
  else if decide ((day + 4) mod 7 = 0 ∨ (day + 4) mod 7 = 6) then "weekend"
  else "weekday".

Definition resolveServiceDay_spec (tz : TimeZone) (nowLocal : Z)
    (holidays : gmap string JsVal) : string :=
  let localDay := localTime tz nowLocal / msPerDay in
  classifyDate_spec holidays
    (if decide (getHours tz nowLocal < 3) then localDay - 1 else localDay).


Definition lastForDateAndService (cd : CalendarDate)
    (cds : list CalendarDate) : Prop :=
  ∃ l1 l2, cds = (l1 ++ cd :: l2)%list
           ∧ Forall (λ cd', ¬ (cd_date cd' = cd_date cd
                               ∧ cd_service_id cd' = cd_service_id cd)) l2.


(** The holiday exception map as the specification words it: Modified
    (2) when some exception record adds, on the date, a service that the
    calendar map does not have; else Weekend (1) when some exception
    record removes, on the date, a service of the calendar map that is
    weekday-classified; else no entry. *)
Definition holidayOverride_spec (cal : list CalendarRow)
    (cds : list CalendarDate) (date : string) : option JsVal :=
  if decide (Exists (λ cd, cd_date cd = date
                           ∧ parseInt (cd_exception_type cd) = Some 1
                           ∧ services cal !! cd_service_id cd = None) cds)
  then Some (JNum 2)
  else if decide (Exists (λ cd, cd_date cd = date
                           ∧ parseInt (cd_exception_type cd) = Some 2
                           ∧ classify (services cal !! cd_service_id cd)
                             = "weekday") cds)
  then Some (JNum 1)
  else None.

(** The service type of an emitted tuple as the specification words it:
    Weekday or Weekend for a service of the calendar map, Modified (2) for
    a service that the calendar map does not have. [emitted] is the
    document that a compactor script gives for the feed. *)
Definition serviceTypeEncoding_spec (emitted : option Snapshot) (feed : Feed)
  : Prop :=
  ∀ snap stationId dir d,
    emitted = Some snap →
    d ∈ snapshotBucket snap stationId dir →
    ∃ st trip,
      st ∈ stopTimes feed
      ∧ tripInfo (trips feed) !! st_trip_id st = Some trip
      ∧ trainNumber d = trainNum trip
      ∧ (is_Some (services (calendar feed) !! serviceId trip) →
           serviceType d = 0 ∨ serviceType d = 1)
      ∧ (services (calendar feed) !! serviceId trip = None →
           serviceType d = 2).

(** No two departures of a bucket share minute and train number, within
    one service type. *)
Definition noDuplicates_spec (bucket : list Departure) : Prop :=
  ∀ i j di dj,
    bucket !! i = Some di → bucket !! j = Some dj → i ≠ j →
    serviceType di = serviceType dj →
    ¬ (minute di = minute dj ∧ trainNumber di = trainNumber dj).

(** ** Sample feeds *)

(** Train 101 is listed under two weekday services, and a weekend train
    leaves the same platform at the same minute. *)
Definition feedRepeatedTrip : Feed :=
  {| stops := [mkStop "70011" "sf"; mkStop "70012" "sf"];
     trips := [mkTrip "T1" "WD" "0" "SF" "L1" "101";
               mkTrip "T2" "WE" "0" "SF" "L1" "221";
               mkTrip "T3" "WD2" "0" "SF" "L1" "101"];
     stopTimes := [mkStopTime "T1" "70011" "05:00:00";
                   mkStopTime "T2" "70011" "05:00:00";
                   mkStopTime "T3" "70011" "05:00:00"];
     calendar := [mkCalendarRow "WD" "1" "0" "20260101" "20261231";
                  mkCalendarRow "WD2" "1" "0" "20260101" "20261231";
                  mkCalendarRow "WE" "0" "1" "20260101" "20261231"];
     calendarDates := [];
     routes := [mkRoute "L1" "Local Weekday" "fff"] |}.

(** A holiday-only train: its service has exception records only. *)
Definition feedHolidayOnly : Feed :=
  {| stops := [mkStop "70011" "sf"];
     trips := [mkTrip "T9" "H1" "0" "SF" "L1" "M101"];
     stopTimes := [mkStopTime "T9" "70011" "08:20:00"];
     calendar := [mkCalendarRow "WD" "1" "0" "20260101" "20261231"];
     calendarDates := [mkCalendarDate "H1" "20260119" "1" "MLK Day";
                       mkCalendarDate "WD" "20260119" "2" "MLK Day";
                       mkCalendarDate "WD" "20260101" "2" "New Year"];
     routes := [mkRoute "L1" "Local Weekday" "fff"] |}.


End Contract.
Export Contract.

(** ** Reading the feed files ([parseCSV]) *)

Module Csv.

Definition newline : ascii := ascii_of_nat 10.

(** U+FEFF, which a file may start with and which [readFileSync] keeps. *)
Definition byteOrderMark : string :=
  String (ascii_of_nat 239) (String (ascii_of_nat 187)
    (String (ascii_of_nat 191) "")).

(** [obj[h] = v] for a string [v] on an object made by [{}]: the
    assignment to [__proto__] reaches the setter of [Object.prototype],
    which ignores a value that is not an object, so no property is
    stored; every other name becomes a property of the object. *)
Definition setField (h v : string) (obj : gmap string string)
  : gmap string string :=
  if decide (h = "__proto__") then obj else <[h := v]> obj.

(** [headers.forEach((h, i) => obj[h] = values[i] || '')], from index [i]. *)
Fixpoint fillRow (headers : list string) (i : nat) (values : list string)
    (obj : gmap string string) : gmap string string :=
  match headers with
  | [] => obj
  | h :: rest =>
      fillRow rest (S i) values (setField h (default "" (values !! i)) obj)
  end.

(** The body of [parseCSV] after the file is read: [content] is the text
    of the file. *)
Definition parseCSV (content : string) : list (gmap string string) :=
  match split newline (trim content) with
  | [] => []
  | first :: lines =>
      let headers := split ","%char first in
      (λ line, fillRow headers 0 (split ","%char line) ∅) <$> lines
  end.

End Csv.
Export Csv.

(** ** The second compactor script, with the three-way service type

    It is the script that follows the icon generator in
    [generate-icons.js]; it differs from [process-gtfs.js] in the
    classification of the services, in the encoding of the service type
    and in the holiday map. The specification follows this variant of
    the compactor. *)

Module ThreeWay.

(** [if (service) serviceType = service.weekday ? 'weekday' : 'weekend';
     else serviceType = 'modified';] *)
Definition classify3 (service : option Service) : string :=
  match service with
  | Some svc => if weekday svc then "weekday" else "weekend"
  | None => "modified"
  end.

(** The body of [stopTimes.forEach], with the classification as a
    parameter: the two scripts differ in it alone. [None] is read as for
    [processStopTime]. *)
Definition processStopTimeWith (classifyFn : option Service → string)
    (feed : Feed) (schedule : gmap string (Buckets Entry))
    (st : StopTime) : option (gmap string (Buckets Entry)) :=
  match tripInfo (trips feed) !! st_trip_id st with
  | None => Some schedule
  | Some trip =>
      match stopToStation (stops feed) !! st_stop_id st with
      | None => Some schedule
      | Some stationId =>
          if decide (stationId = "") then Some schedule else
          let dir := if decide (direction trip = Some 0)
                     then northbound else southbound in
          let service := services (calendar feed) !! serviceId trip in
          let serviceType := classifyFn service in
          let buckets := default (mkBuckets [] []) (schedule !! stationId) in
          minutes ← parseMinutes (st_departure_time st);
          let routeName :=
            match routeInfo (routes feed) !! routeId trip with
            | Some ri => if decide (name ri = "") then "Local" else name ri
            | None => "Local"
            end in
          Some (<[stationId :=
                    push dir {| t := minutes;
                                n := trainNum trip;
                                r := routeName;
                                s := serviceType;
                                h := headsign trip |} buckets]> schedule)
      end
  end.

Fixpoint forEachStopTimeWith (classifyFn : option Service → string)
    (feed : Feed) (sts : list StopTime)
    (schedule : gmap string (Buckets Entry))
  : option (gmap string (Buckets Entry)) :=
  match sts with
  | [] => Some schedule
  | st :: rest =>
      schedule ← processStopTimeWith classifyFn feed schedule st;
      forEachStopTimeWith classifyFn feed rest schedule
  end.

(** [serviceTypeMap] *)
Definition serviceTypeMap : gmap string Z :=
  <["weekday" := 0]> (<["weekend" := 1]> (<["modified" := 2]> ∅)).

(** [[t.t, t.n, routeTypeMap[t.r] ?? 0, serviceTypeMap[t.s] ?? 0]] *)
Definition compactEntry3 (e : Entry) : Departure :=
  {| minute := t e;
     trainNumber := n e;
     routeType := default 0 (routeTypeMap !! r e);
     serviceType := default 0 (serviceTypeMap !! s e) |}.

Definition compactSchedule3 (schedule : gmap string (Buckets Entry))
  : gmap string (Buckets Departure) :=
  mapBuckets (fmap compactEntry3) <$> schedule.

(** [entries.some(([serviceId, h]) => h.type === 1 && !services[serviceId])] *)
Definition hasModifiedAdded (services : gmap string Service)
    (exceptions : gmap string Exception) : Prop :=
  Exists (λ entry, type entry.2 = Some 1 ∧ services !! entry.1 = None)
         (map_to_list exceptions).

(** [entries.some(([serviceId, h]) =>
       h.type === 2 && services[serviceId]?.weekday)] *)
Definition hasWeekdayRemoved3 (services : gmap string Service)
    (exceptions : gmap string Exception) : Prop :=
  Exists (λ entry, type entry.2 = Some 2
                   ∧ weekday <$> services !! entry.1 = Some true)
         (map_to_list exceptions).

#[global] Instance hasModifiedAdded_dec sv ex : Decision (hasModifiedAdded sv ex).
Proof. unfold hasModifiedAdded. apply _. Defined.

#[global] Instance hasWeekdayRemoved3_dec sv ex :
  Decision (hasWeekdayRemoved3 sv ex).
Proof. unfold hasWeekdayRemoved3. apply _. Defined.

(** [compactHolidays]: 2 for a modified schedule, 1 for a weekend schedule
    on a weekday. *)
Definition compactHolidays3 (services : gmap string Service)
    (holidays : gmap string (gmap string Exception)) : gmap string JsVal :=
  omap (λ exceptions,
          if decide (hasModifiedAdded services exceptions) then Some (JNum 2)
          else if decide (hasWeekdayRemoved3 services exceptions)
          then Some (JNum 1)
          else None) holidays.

(** The emitted document, without the station list and the platform
    table; [None] for a feed outside of the embedding, as for [compact]. *)
Definition compact3 (feed : Feed) : option Snapshot :=
  schedule ← forEachStopTimeWith classify3 feed (stopTimes feed) ∅;
  Some {| snap_schedule := compactSchedule3 (sortAndDedupe schedule);
          snap_holidays := compactHolidays3 (services (calendar feed))
                             (holidays (calendarDates feed));
          validFrom := c_start_date <$> head (calendar feed);
          validTo := c_end_date <$> head (calendar feed) |}.

End ThreeWay.
Export ThreeWay.

(** ** Notions used to state the properties of the scripts *)

Module Notions.

(** A stop-time record that [forEach] does not skip. *)
Definition resolves (feed : Feed) (st : StopTime) : Prop :=
  is_Some (tripInfo (trips feed) !! st_trip_id st)
  ∧ is_Some (stopToStation (stops feed) !! st_stop_id st).

#[global] Instance resolves_dec feed st : Decision (resolves feed st).
Proof. unfold resolves. apply _. Defined.

Definition withStopTimes (feed : Feed) (sts : list StopTime) : Feed :=
  {| stops := stops feed; trips := trips feed; stopTimes := sts;
     calendar := calendar feed; calendarDates := calendarDates feed;
     routes := routes feed |}.

(** The entries that [forEach] pushes for a record, under a given
    classification of the services. *)
Definition pushedByWith (classifyFn : option Service → string) (feed : Feed)
    (st : StopTime) (stationId : string) (dir : Direction) (e : Entry) : Prop :=
  ∃ trip,
    tripInfo (trips feed) !! st_trip_id st = Some trip
    ∧ stopToStation (stops feed) !! st_stop_id st = Some stationId
    ∧ dir = (if decide (direction trip = Some 0) then northbound else southbound)
    ∧ parseMinutes (st_departure_time st) = Some (t e)
    ∧ n e = trainNum trip
    ∧ r e = match routeInfo (routes feed) !! routeId trip with
            | Some ri => if decide (name ri = "") then "Local" else name ri
            | None => "Local"
            end
    ∧ s e = classifyFn (services (calendar feed) !! serviceId trip).

Definition filledFromWith (classifyFn : option Service → string) (feed : Feed)
    (all : list StopTime) (schedule : gmap string (Buckets Entry)) : Prop :=
  ∀ stationId b dir e,
    schedule !! stationId = Some b → e ∈ bucket dir b →
    ∃ st, st ∈ all ∧ pushedByWith classifyFn feed st stationId dir e.

(** Two entries that the two scripts push for one record: they differ in
    the name of the service type alone. *)
Definition sameEntry (a b : Entry) : Prop :=
  t a = t b ∧ n a = n b ∧ r a = r b ∧ h a = h b
  ∧ ∃ service, s a = classify service ∧ s b = classify3 service.

(** Two tuples that the two scripts emit for one record. *)
Definition sameTuple (a b : Departure) : Prop :=
  minute a = minute b ∧ trainNumber a = trainNumber b
  ∧ routeType a = routeType b
  ∧ (serviceType a = 0 ↔ serviceType b = 0)
  ∧ (serviceType a = 1 ↔ serviceType b = 1 ∨ serviceType b = 2).

Definition sameBuckets (a b : Buckets Entry) : Prop :=
  Forall2 sameEntry (north a) (north b) ∧ Forall2 sameEntry (south a) (south b).

Definition sameSchedule (a b : gmap string (Buckets Entry)) : Prop :=
  ∀ sid, option_Forall2 sameBuckets (a !! sid) (b !! sid).


Definition removesWeekday (cal : list CalendarRow) (cds : list CalendarDate)
    (date : string) : Prop :=
  ∃ cd svc, lastForDateAndService cd cds ∧ cd_date cd = date
            ∧ parseInt (cd_exception_type cd) = Some 2
            ∧ services cal !! cd_service_id cd = Some svc
            ∧ weekday svc = true.

(** The value of a string of decimal digits. *)
Definition digitsValue (s : string) : Z := default 0 (digitsPrefix 10 s None).

(** The identifiers and names of a feed that the scripts use as keys of
    their tables: stop, station, trip, service and route identifiers, the
    dates of the exception records and the names of the routes. *)
Definition feedKeys (feed : Feed) : list string :=
  ((stops feed ≫= λ s, [s_stop_id s; s_parent_station s])
   ++ (trips feed ≫= λ t, [t_trip_id t; t_service_id t; t_route_id t])
   ++ (stopTimes feed ≫= λ st, [st_trip_id st; st_stop_id st])
   ++ (calendar feed ≫= λ c, [c_service_id c])
   ++ (calendarDates feed ≫= λ cd, [cd_service_id cd; cd_date cd])
   ++ (routes feed ≫= λ r, [r_route_id r; r_route_short_name r]))%list.

(** A feed on which the tables of the scripts behave as finite maps: none
    of its keys is the name of a member of [Object.prototype]. *)
Definition plainIds (feed : Feed) : Prop := Forall plainKey (feedKeys feed).

#[global] Instance plainIds_dec feed : Decision (plainIds feed).
Proof. unfold plainIds. apply _. Defined.

(** A departure time in the form of the feed format: an hour field and a
    minute field of decimal digits, whatever follows the second colon. The
    fields have at most 14 digits, so that the hour, the minute and
    [h * 60 + m] are integers of the safe range, which the code computes
    exactly. *)
Definition clockTime (time : string) : Prop :=
  match split ":" time with
  | hh :: mm :: _ =>
      allDecimalDigits hh = true ∧ allDecimalDigits mm = true
      ∧ (String.length hh ≤ 14)%nat ∧ (String.length mm ≤ 14)%nat
  | _ => False
  end.

#[global] Instance clockTime_dec time : Decision (clockTime time).
Proof.
  unfold clockTime. destruct (split ":" time) as [|hh [|mm rest]]; apply _.
Defined.

(** A feed whose stop-time records that are not skipped carry such a
    departure time: the time of a skipped record is not read. *)
Definition clockTimes (feed : Feed) : Prop :=
  Forall (λ st, resolves feed st → clockTime (st_departure_time st))
         (stopTimes feed).

#[global] Instance clockTimes_dec feed : Decision (clockTimes feed).
Proof. unfold clockTimes. apply _. Defined.

(** Exception records, and a calendar with them, whose service
    identifiers and dates are plain keys. *)
Definition plainExceptions (cds : list CalendarDate) : Prop :=
  Forall plainKey (cds ≫= λ cd, [cd_service_id cd; cd_date cd]).

Definition plainCalendar (cal : list CalendarRow) (cds : list CalendarDate)
  : Prop :=
  Forall plainKey (c_service_id <$> cal) ∧ plainExceptions cds.

#[global] Instance plainExceptions_dec cds : Decision (plainExceptions cds).
Proof. unfold plainExceptions. apply _. Defined.

#[global] Instance plainCalendar_dec cal cds : Decision (plainCalendar cal cds).
Proof. unfold plainCalendar. apply _. Defined.


(** Two exception records for one service on one date: the service H1,
    which the calendar does not have, is added and then removed. *)
Definition exceptionsRepeated : list CalendarDate :=
  [ mkCalendarDate "H1" "20260119" "1" "MLK Day";
    mkCalendarDate "H1" "20260119" "2" "MLK Day" ].

(** The hour of the 12-hour clock and its marker. *)
Definition hour12 (hh : Z) : Z :=
  if decide (hh = 0) then 12 else if decide (hh ≤ 12) then hh else hh - 12.

Definition ampm (hh : Z) : string := if decide (hh < 12) then "am" else "pm".


(** Two tuples that the duplicate filter tells apart. *)
Definition distinctTuple (a b : Departure) : Prop :=
  ¬ (minute b = minute a ∧ trainNumber b = trainNumber a).

(** A feed with two records that do not resolve, and its resolving part. *)
Definition feedDangling : Feed :=
  {| stops := [mkStop "70011" "sf"; mkStop "sf" ""];
     trips := [mkTrip "T1" "WD" "0" "SF" "L1" "101";
               mkTrip "T2" "WE" "1" "SJ" "L9" "222"];
     stopTimes := [mkStopTime "T1" "70011" "25:30:00";
                   mkStopTime "TX" "70011" "05:00:00";
                   mkStopTime "T2" "sf" "06:00:00";
                   mkStopTime "T2" "70011" "06:15"];
     calendar := [mkCalendarRow "WD" "1" "0" "20260101" "20261231";
                  mkCalendarRow "WE" "0" "0" "20260101" "20261231"];
     calendarDates := [mkCalendarDate "H1" "20260119" "1" "MLK Day";
                       mkCalendarDate "WD" "20260119" "2" "MLK Day";
                       mkCalendarDate "WD" "20260101" "2" "New Year";
                       mkCalendarDate "WE" "20260704" "2" "July 4"];
     routes := [mkRoute "L1" "Express" "f00"] |}.

End Notions.
Export Notions.

(** * Theorems *)

(** ** Properties of the query *)

Section QueryFacts.

Implicit Types (origin dest : list Departure) (svc now : Z).

Lemma elem_of_destTrainNums dest svc n :
  n ∈ destTrainNums dest svc ↔ stopsAt dest svc n.
Proof.
  unfold destTrainNums, stopsAt.
  rewrite elem_of_list_to_set, list_elem_of_fmap, Exists_exists.
  split.
  - intros (e & -> & He). apply list_elem_of_filter in He as [Hs He].
    exists e. auto.
  - intros (e & He & Hs & Hn). exists e. split; [done|].
    apply list_elem_of_filter. auto.
Qed.

Lemma filterTrainsByDestination_spec origin dest svc now :
  filterTrainsByDestination origin dest svc now
  = queryDepartures_spec origin dest svc now.
Proof.
  unfold filterTrainsByDestination, queryDepartures_spec.
  apply list_filter_iff. intros d.
  rewrite elem_of_destTrainNums. unfold endOfDay. intuition lia.
Qed.

Lemma Sorted_minute_filter (P : Departure → Prop) `{!∀ d, Decision (P d)}
    (l : list Departure) :
  Sorted minute_le l → Sorted minute_le (filter P l).
Proof.
  intros Hs. apply Sorted_StronglySorted in Hs.
  - apply StronglySorted_Sorted.
    induction Hs as [|x l Hl IH Hx]; [constructor|].
    rewrite filter_cons. case_decide; [|done].
    constructor; [done|].
    apply Forall_forall. intros y Hy.
    apply list_elem_of_filter in Hy as [_ Hy].
    rewrite Forall_forall in Hx. auto.
  - intros a b c. unfold minute_le. lia.
Qed.

Lemma stopsAt_exists dest svc n :
  stopsAt dest svc n
  ↔ ∃ e, e ∈ dest ∧ serviceType e = svc ∧ trainNumber e = n.
Proof. unfold stopsAt. by rewrite Exists_exists. Qed.

(** C1 (as stated it fails). The function filters the origin bucket and
    does not sort it: on an origin bucket that lists the 5:00 train before
    the 4:00 train, both of which stop at the destination, the result at
    the cursor 200 is the bucket itself, in that order, and it is not in
    ascending minute order. *)
Lemma queryDepartures_contract_counterexample :
  filterTrainsByDestination lateFirstOriginTrains lateFirstDestTrains 0 200
  = [mkDeparture 300 "101" 0 0; mkDeparture 240 "103" 0 0]
  ∧ filterTrainsByDestination lateFirstOriginTrains lateFirstDestTrains 0 200
    = queryDepartures_spec lateFirstOriginTrains lateFirstDestTrains 0 200
  ∧ ¬ Sorted minute_le
        (filterTrainsByDestination lateFirstOriginTrains lateFirstDestTrains
           0 200).
Proof.
  split; [vm_compute; reflexivity|].
  split; [apply filterTrainsByDestination_spec|].
  intros Hs.
  assert (Hrun : filterTrainsByDestination lateFirstOriginTrains
                   lateFirstDestTrains 0 200
                 = [mkDeparture 300 "101" 0 0; mkDeparture 240 "103" 0 0])
    by (vm_compute; reflexivity).
  rewrite Hrun in Hs. apply Sorted_inv in Hs as [_ Hhd].
  inversion_clear Hhd as [|? ? Hle]. unfold minute_le in Hle. simpl in Hle. lia.
Qed.

(** C1 (amended). [filterTrainsByDestination] returns exactly the
    departures of the origin bucket with the requested service type, a
    minute in [[nowMinutes, 1560]] and a train number that the destination
    bucket lists under the same service type; it returns them in the order
    of the origin bucket, so the result is in ascending minute order when
    the origin bucket is; and on the sample data of the test suite it
    yields ['101'], ['201','664'], ['M101'] and ['664']. *)
Theorem queryDepartures_contract origin dest svc now :
  let result := filterTrainsByDestination origin dest svc now in
  result = queryDepartures_spec origin dest svc now
  ∧ (∀ d, d ∈ result ↔
          d ∈ origin ∧ serviceType d = svc ∧ minute d >= now ∧ minute d ≤ 1560
          ∧ ∃ e, e ∈ dest ∧ serviceType e = svc ∧ trainNumber e = trainNumber d)
  ∧ (Sorted minute_le origin → Sorted minute_le result)
  ∧ trainNumber <$> filterTrainsByDestination sampleOriginTrains sampleDestTrains 0 300
    = ["101"]
  ∧ trainNumber <$> filterTrainsByDestination sampleOriginTrains sampleDestTrains 1 300
    = ["201"; "664"]
  ∧ trainNumber <$> filterTrainsByDestination sampleOriginTrains sampleDestTrains 2 300
    = ["M101"]
  ∧ trainNumber <$> filterTrainsByDestination sampleOriginTrains sampleDestTrains 1 410
    = ["664"].
Proof.
  intros result. subst result.
  split; [apply filterTrainsByDestination_spec|].
  split.
  { intros d. rewrite filterTrainsByDestination_spec.
    unfold queryDepartures_spec. rewrite list_elem_of_filter, stopsAt_exists.
    tauto. }
  split; [apply Sorted_minute_filter|].
  repeat split; vm_compute; reflexivity.
Qed.

Lemma queryDepartures_contract_witness :
  Sorted minute_le sampleOriginTrains
  ∧ Sorted minute_le
      (filterTrainsByDestination sampleOriginTrains sampleDestTrains 1 300).
Proof.
  assert (Hs : Sorted minute_le sampleOriginTrains).
  { unfold sampleOriginTrains.
    repeat (constructor; [|first [constructor; unfold minute_le; simpl; lia
                                 | constructor]]).
    constructor. }
  split; [exact Hs|].
  exact (proj1 (proj2 (proj2
    (queryDepartures_contract sampleOriginTrains sampleDestTrains 1 300))) Hs).
Defined.

(** C10. The result of [filterTrainsByDestination] is a subsequence of the
    origin list, and it depends on the destination list only through the
    set of train numbers listed there under the requested service type:
    two destination lists with the same such set give the same result. *)
Theorem filterTrainsByDestination_dest_set origin dest svc now :
  sublist (filterTrainsByDestination origin dest svc now) origin
  ∧ ∀ dest',
      (∀ n, (∃ e, e ∈ dest ∧ serviceType e = svc ∧ trainNumber e = n)
            ↔ (∃ e, e ∈ dest' ∧ serviceType e = svc ∧ trainNumber e = n)) →
      filterTrainsByDestination origin dest svc now
      = filterTrainsByDestination origin dest' svc now.
Proof.
  split; [apply sublist_filter|]. intros dest' Hset.
  unfold filterTrainsByDestination. apply list_filter_iff. intros d.
  rewrite !elem_of_destTrainNums, !stopsAt_exists, (Hset (trainNumber d)).
  tauto.
Qed.

Lemma filterTrainsByDestination_dest_set_witness :
  filterTrainsByDestination sampleOriginTrains sampleDestTrains 1 300
  = filterTrainsByDestination sampleOriginTrains shuffledDestTrains 1 300.
Proof.
  apply (proj2 (filterTrainsByDestination_dest_set
                  sampleOriginTrains sampleDestTrains 1 300)).
  intros n. rewrite <- !stopsAt_exists, <- !elem_of_destTrainNums.
  assert (Heq : destTrainNums sampleDestTrains 1
                = destTrainNums shuffledDestTrains 1)
    by (vm_compute; reflexivity).
  rewrite Heq. reflexivity.
Defined.

End QueryFacts.

(** ** Properties of the clock functions *)

Section ClockFacts.

(** A property of the integers below a bound holds when it holds of each
    of them, which evaluation checks one by one. *)
Lemma below_by_cases (k : nat) (P : Z → Prop) :
  (∀ i : nat, (i < k)%nat → P (Z.of_nat i)) → ∀ z, 0 ≤ z < Z.of_nat k → P z.
Proof.
  intros HP z Hz. rewrite <- (Z2Nat.id z) by lia. apply HP. lia.
Qed.

Lemma minute_padStart r :
  0 ≤ r < 60 → padStart 2 "0" (numberToString r) = twoDigits r.
Proof.
  intros Hr. pattern r. apply (below_by_cases 60); [|simpl; lia].
  clear r Hr. intros i Hi.
  do 60 (destruct i as [|i]; [vm_compute; reflexivity|]). lia.
Qed.

Lemma hour_display hh :
  0 ≤ hh < 24 →
  (if decide (Z.rem hh 12 = 0) then 12 else Z.rem hh 12)
  = (if decide (hh = 0) then 12 else if decide (hh ≤ 12) then hh else hh - 12)
  ∧ (if decide (hh >= 12) then "pm" else "am")
    = (if decide (hh < 12) then "am" else "pm").
Proof.
  intros Hh. pattern hh. apply (below_by_cases 24); [|simpl; lia].
  clear hh Hh. intros i Hi.
  do 24 (destruct i as [|i]; [vm_compute; split; reflexivity|]). lia.
Qed.

Lemma formatTime_unfold m :
  0 ≤ m → formatTime m = formatClockTime_spec m.
Proof.
  intros Hm. unfold formatTime, formatClockTime_spec.
  assert (H60 : 0 ≤ m / 60) by (apply Z.div_pos; lia).
  rewrite !(Z.rem_mod_nonneg (m / 60) 24) by lia.
  rewrite !(Z.rem_mod_nonneg m 60) by lia.
  assert (Hh : 0 ≤ (m / 60) mod 24 < 24) by (apply Z.mod_pos_bound; lia).
  assert (Hr : 0 ≤ m mod 60 < 60) by (apply Z.mod_pos_bound; lia).
  destruct (hour_display _ Hh) as [-> ->].
  by rewrite (minute_padStart _ Hr).
Qed.

Lemma formatClockTime_spec_period m :
  formatClockTime_spec (m + 1440) = formatClockTime_spec m.
Proof.
  unfold formatClockTime_spec.
  replace ((m + 1440) / 60) with (m / 60 + 1 * 24)
    by (replace (m + 1440) with (m + 24 * 60) by lia;
        rewrite Z.div_add by lia; lia).
  rewrite Z.mod_add by lia.
  replace (m + 1440) with (m + 24 * 60) by lia.
  by rewrite Z.mod_add by lia.
Qed.

(** C6. On the non-negative integers that a [Number] holds exactly, [m]
    and [m + 1440] up to [MAX_SAFE_INTEGER], [formatTime] is the 12-hour
    clock format of the specification: display hour [floor(m/60) mod 24],
    hour 0 shown as 12am and hour 12 as 12pm, the minutes on two
    zero-padded digits; it has period 1440; and it gives 12:00am, 12:00pm,
    3:45pm, 12:14am and 1:30am at 0, 720, 945, 1454 and 1530. *)
Theorem formatTime_clock m :
  0 ≤ m → m + 1440 ≤ MAX_SAFE_INTEGER →
  formatTime m = formatClockTime_spec m
  ∧ formatTime m = formatTime (m + 1440)
  ∧ ((m / 60) mod 24 = 0 →
       formatTime m = "12:" ++ twoDigits (m mod 60) ++ "am")
  ∧ ((m / 60) mod 24 = 12 →
       formatTime m = "12:" ++ twoDigits (m mod 60) ++ "pm")
  ∧ formatTime 0 = "12:00am"
  ∧ formatTime 720 = "12:00pm"
  ∧ formatTime 945 = "3:45pm"
  ∧ formatTime 1454 = "12:14am"
  ∧ formatTime 1530 = "1:30am".
Proof.
  intros Hm _.
  split; [by apply formatTime_unfold|].
  split.
  { rewrite !formatTime_unfold by lia. by rewrite formatClockTime_spec_period. }
  split.
  { intros Hh. rewrite formatTime_unfold by lia.
    unfold formatClockTime_spec. rewrite Hh. reflexivity. }
  split.
  { intros Hh. rewrite formatTime_unfold by lia.
    unfold formatClockTime_spec. rewrite Hh. reflexivity. }
  repeat split; vm_compute; reflexivity.
Qed.

Lemma formatTime_clock_witness :
  formatTime 1454 = formatTime (1454 + 1440)
  ∧ formatTime 1454 = "12:" ++ twoDigits (1454 mod 60) ++ "am".
Proof.
  assert (H0 : 0 ≤ 1454) by lia.
  assert (Hsafe : 1454 + 1440 ≤ MAX_SAFE_INTEGER) by (vm_compute; discriminate).
  split.
  - exact (proj1 (proj2 (formatTime_clock 1454 H0 Hsafe))).
  - apply (proj1 (proj2 (proj2 (formatTime_clock 1454 H0 Hsafe)))).
    vm_compute. reflexivity.
Defined.

Lemma getHours_range tz now : 0 ≤ getHours tz now ≤ 23.
Proof.
  unfold getHours.
  pose proof (Z.mod_pos_bound (localTime tz now / msPerHour) 24). lia.
Qed.

Lemma getMinutes_range tz now : 0 ≤ getMinutes tz now ≤ 59.
Proof.
  unfold getMinutes.
  pose proof (Z.mod_pos_bound (localTime tz now / msPerMinute) 60). lia.
Qed.

Lemma getCurrentMinutes_cases tz now h m :
  0 ≤ h ≤ 23 → 0 ≤ m ≤ 59 →
  getCurrentMinutes tz now (Some h) (Some m)
  = if decide (3 ≤ h) then h * 60 + m else h * 60 + m + 1440.
Proof.
  intros Hh Hm. unfold getCurrentMinutes.
  repeat case_decide; lia.
Qed.

Lemma getCurrentMinutes_clock tz now :
  getCurrentMinutes tz now None None
  = getCurrentMinutes tz now (Some (getHours tz now)) (Some (getMinutes tz now)).
Proof. reflexivity. Qed.

(** C7. For a local hour [h] in 0..23 and a minute [m] in 0..59,
    [getCurrentMinutes] is [h*60+m] when [h >= 3] and [h*60+m+1440] when
    [h < 3], whether the time is passed in or read from the clock; 10:30,
    23:56, 00:04, 02:59 and 03:00 give 630, 1436, 1444, 1619 and 180. *)
Theorem getCurrentMinutes_value tz now h m :
  0 ≤ h ≤ 23 → 0 ≤ m ≤ 59 →
  (3 ≤ h → getCurrentMinutes tz now (Some h) (Some m) = h * 60 + m)
  ∧ (h < 3 → getCurrentMinutes tz now (Some h) (Some m) = h * 60 + m + 1440)
  ∧ (getHours tz now = h → getMinutes tz now = m →
     getCurrentMinutes tz now None None
     = if decide (3 ≤ h) then h * 60 + m else h * 60 + m + 1440)
  ∧ getCurrentMinutes tz now (Some 10) (Some 30) = 630
  ∧ getCurrentMinutes tz now (Some 23) (Some 56) = 1436
  ∧ getCurrentMinutes tz now (Some 0) (Some 4) = 1444
  ∧ getCurrentMinutes tz now (Some 2) (Some 59) = 1619
  ∧ getCurrentMinutes tz now (Some 3) (Some 0) = 180.
Proof.
  intros Hh Hm.
  split; [intros; rewrite getCurrentMinutes_cases by done; case_decide; lia|].
  split; [intros; rewrite getCurrentMinutes_cases by done; case_decide; lia|].
  split.
  { intros <- <-. rewrite getCurrentMinutes_clock.
    apply getCurrentMinutes_cases; done. }
  repeat split; reflexivity.
Qed.

Lemma getCurrentMinutes_value_witness :
  getCurrentMinutes (fixedZone (-8 * msPerHour))
    (localInstant (-8 * msPerHour) 2026 1 19 1 30) None None = 1530
  ∧ getCurrentMinutes (fixedZone 0) 0 (Some 1) (Some 30) = 1 * 60 + 30 + 1440.
Proof.
  pose (tz := fixedZone (-8 * msPerHour)).
  pose (now := localInstant (-8 * msPerHour) 2026 1 19 1 30).
  assert (H1 : 0 ≤ 1 ≤ 23) by lia.
  assert (H30 : 0 ≤ 30 ≤ 59) by lia.
  split.
  - apply (proj1 (proj2 (proj2 (getCurrentMinutes_value tz now 1 30 H1 H30))));
      vm_compute; reflexivity.
  - apply (proj1 (proj2 (getCurrentMinutes_value (fixedZone 0) 0 1 30 H1 H30))).
    lia.
Defined.

(** C9. For a local hour in 0..23 and a minute in 0..59 the value of
    [getCurrentMinutes] lies in [[180, 1619]], whether the time is passed in
    or read from the clock; so it is never the minute of a departure stored
    below 180, and a query made at that cursor returns no such departure. *)
Theorem getCurrentMinutes_range tz now h m :
  0 ≤ h ≤ 23 → 0 ≤ m ≤ 59 →
  180 ≤ getCurrentMinutes tz now (Some h) (Some m) ≤ 1619
  ∧ 180 ≤ getCurrentMinutes tz now None None ≤ 1619
  ∧ (∀ d : Departure, minute d < 180 →
       minute d ≠ getCurrentMinutes tz now (Some h) (Some m))
  ∧ (∀ origin dest svc d,
       d ∈ filterTrainsByDestination origin dest svc
             (getCurrentMinutes tz now (Some h) (Some m)) →
       180 ≤ minute d).
Proof.
  intros Hh Hm.
  assert (Hr : 180 ≤ getCurrentMinutes tz now (Some h) (Some m) ≤ 1619).
  { rewrite getCurrentMinutes_cases by done. case_decide; lia. }
  split; [exact Hr|].
  split.
  { rewrite getCurrentMinutes_clock, getCurrentMinutes_cases
      by auto using getHours_range, getMinutes_range.
    pose proof (getHours_range tz now). pose proof (getMinutes_range tz now).
    case_decide; lia. }
  split; [intros d Hd; lia|].
  intros origin dest svc d Hd.
  unfold filterTrainsByDestination in Hd.
  apply list_elem_of_filter in Hd as [(_ & Hnow & _) _]. lia.
Qed.

Lemma getCurrentMinutes_range_witness :
  180 ≤ getCurrentMinutes (fixedZone 0) 0 (Some 2) (Some 59) ≤ 1619.
Proof.
  apply (getCurrentMinutes_range (fixedZone 0) 0 2 59); lia.
Defined.

End ClockFacts.

(** ** Properties of the calendar arithmetic *)

Section DateFacts.

(** [civilFromDays] and [daysFromCivil] are inverse of each other on day
    numbers, and the day number of January 1st is [DayFromYear] of
    ECMAScript. *)
Lemma daysFromCivil_civilFromDays days :
  let '(y, m, d) := civilFromDays days in daysFromCivil y m d = days.
Proof.
  unfold civilFromDays, daysFromCivil. simpl.
  repeat case_decide; Z.div_mod_to_equations; lia.
Qed.

Lemma civilFromDays_range days :
  let '(y, m, d) := civilFromDays days in 1 ≤ m ≤ 12 ∧ 1 ≤ d ≤ 31.
Proof.
  unfold civilFromDays. simpl.
  repeat case_decide; Z.div_mod_to_equations; lia.
Qed.

Lemma daysFromCivil_new_year y :
  daysFromCivil y 1 1
  = 365 * (y - 1970) + (y - 1969) / 4 - (y - 1901) / 100 + (y - 1601) / 400.
Proof.
  unfold daysFromCivil. simpl.
  repeat case_decide; Z.div_mod_to_equations; lia.
Qed.

Lemma digitChar_not_dash k :
  0 ≤ k < 10 → Ascii.eqb (digitChar k) "-" = false.
Proof.
  intros Hk. pattern k. apply (below_by_cases 10); [|simpl; lia].
  clear k Hk. intros i Hi.
  do 10 (destruct i as [|i]; [vm_compute; reflexivity|]). lia.
Qed.

Lemma pad4_digits y :
  0 ≤ y ≤ 9999 →
  pad 4 y = String (digitChar (y / 1000))
              (String (digitChar (y / 100 mod 10)) (twoDigits (y mod 100))).
Proof.
  intros Hy.
  assert (Hall : Forall (λ y, pad 4 y
                   = String (digitChar (y / 1000))
                       (String (digitChar (y / 100 mod 10))
                          (twoDigits (y mod 100)))) (seqZ 0 10000)).
  { refine (proj1 (bool_decide_eq_true _) _). vm_compute. reflexivity. }
  rewrite Forall_forall in Hall. apply Hall, elem_of_seqZ. lia.
Qed.

(** For a year of four digits the lookup key is [YYYYMMDD] of the UTC date. *)
Lemma dateStr_dateKey t :
  0 ≤ (civilFromDays (t / msPerDay)).1.1 ≤ 9999 →
  dateStr t = dateKey (t / msPerDay).
Proof.
  unfold dateStr, isoDate, dateKey.
  pose proof (civilFromDays_range (t / msPerDay)) as Hr.
  destruct (civilFromDays (t / msPerDay)) as [[y m] d]. simpl.
  intros Hy. destruct Hr as [Hm Hd].
  rewrite decide_True by done.
  unfold pad at 2 3 5 6. rewrite !minute_padStart by lia.
  rewrite !pad4_digits by done. unfold twoDigits.
  cbv [String.append substring removeAll].
  rewrite !digitChar_not_dash by (Z.div_mod_to_equations; lia).
  reflexivity.
Qed.

End DateFacts.

(** ** Properties of the service-day resolution *)

Section ServiceDayFacts.

(** C4 (the code departs from it). In the zone UTC-8, at 17:00 local time
    on Sunday 2026-01-18, a date that the holiday map does not list, the
    rule of the specification gives Weekend; [getServiceType] takes the
    key of the holiday lookup from [toISOString], which is the UTC date
    20260119, and answers 'modified'. *)
Theorem getServiceType_reads_utc_date :
  let tz := fixedZone (-8 * msPerHour) in
  let date := localInstant (-8 * msPerHour) 2026 1 18 17 0 in
  getHours tz date = 17
  ∧ localDateStr tz date = "20260118"
  ∧ getDay tz date = 0
  ∧ testHolidays !! "20260118" = None
  ∧ resolveServiceDay_spec tz date testHolidays = "weekend"
  ∧ dateStr date = "20260119"
  ∧ getServiceType tz date testHolidays = Some "modified".
Proof. vm_compute. repeat split; reflexivity. Qed.

(** When the UTC date of the classified instant is its local date, and
    the offset of the zone is the same one day earlier, [getServiceType]
    follows the rule of the specification. *)
Lemma getServiceType_agrees tz date holidays :
  let now := if decide (getHours tz date < 3) then date - msPerDay else date in
  Z.abs date ≤ 8640000000000000 →
  Z.abs now ≤ 8640000000000000 →
  tz now = tz date →
  now / msPerDay = localTime tz now / msPerDay →
  0 ≤ (civilFromDays (now / msPerDay)).1.1 ≤ 9999 →
  getServiceType tz date holidays
  = Some (resolveServiceDay_spec tz date holidays).
Proof.
  intros now Hdate Hnow Htz Hday Hyear.
  assert (Hlocal : localTime tz now / msPerDay
                   = if decide (getHours tz date < 3)
                     then localTime tz date / msPerDay - 1
                     else localTime tz date / msPerDay).
  { subst now. unfold localTime in *. case_decide; [|done].
    rewrite Htz.
    replace (date - msPerDay + tz date)
      with (date + tz date + (-1) * msPerDay) by lia.
    rewrite Z.div_add by done. lia. }
  unfold getServiceType, resolveServiceDay_spec, timeClip.
  rewrite decide_True by done. simpl.
  replace (24 * 60 * 60 * 1000) with msPerDay by reflexivity.
  assert (Hclip : (if decide (getHours tz date < 3)
                   then (if decide (Z.abs (date - msPerDay) ≤ 8640000000000000)
                         then Some (date - msPerDay) else None)
                   else Some date) = Some now).
  { subst now. case_decide; [|done]. by rewrite decide_True. }
  rewrite Hclip. simpl.
  rewrite dateStr_dateKey by done.
  unfold classifyDate_spec, getDay, weekDay.
  rewrite <- Hlocal, <- Hday.
  repeat case_decide; try done; tauto.
Qed.

(** The lemma applies to the test of the Monday holiday at 10:00. *)
Example getServiceType_agrees_mlk_day :
  getServiceType (fixedZone (-8 * msPerHour))
    (localInstant (-8 * msPerHour) 2026 1 19 10 0) testHolidays
  = Some "modified".
Proof.
  rewrite getServiceType_agrees; [vm_compute; reflexivity|..].
  1-2: vm_compute; discriminate.
  1-2: vm_compute; reflexivity.
  vm_compute. split; discriminate.
Qed.

(** The scenarios of the test suite, run in the zone UTC-8. *)
Lemma getServiceType_test_suite :
  let off := -8 * msPerHour in
  let run y m d hh :=
    getServiceType (fixedZone off) (localInstant off y m d hh 0) testHolidays in
  run 2026 1 12 10 = Some "weekday"
  ∧ run 2026 1 17 10 = Some "weekend"
  ∧ run 2026 1 18 10 = Some "weekend"
  ∧ run 2026 1 19 10 = Some "modified"
  ∧ run 2026 1 1 10 = Some "weekend"
  ∧ run 2025 12 24 10 = Some "modified"
  ∧ run 2026 1 18 1 = Some "weekend"
  ∧ run 2026 1 19 1 = Some "weekend"
  ∧ run 2026 1 19 4 = Some "modified".
Proof. vm_compute. repeat split; reflexivity. Qed.

End ServiceDayFacts.

(** ** Properties of the compactor's lookup tables *)

Section TableFacts.

(** A table filled by [forEach] with [table[key(a)] = val(a)]: the last
    row of a key is the one that is read back. *)
Section LastRowWins.

Context {A B : Type} (key : A → string) (val : A → B).

Lemma fill_other (l : list A) (m : gmap string B) k :
  Forall (λ a, key a ≠ k) l →
  foldl (λ m a, <[key a := val a]> m) m l !! k = m !! k.
Proof.
  revert m. induction l as [|a l IH]; intros m Hl; [done|].
  inversion_clear Hl as [|? ? Ha Hl'].
  simpl. rewrite IH by done. by rewrite lookup_insert_ne.
Qed.

Lemma fill_last (l1 : list A) a (l2 : list A) (m : gmap string B) :
  Forall (λ b, key b ≠ key a) l2 →
  foldl (λ m a, <[key a := val a]> m) m (l1 ++ a :: l2)%list !! key a
  = Some (val a).
Proof.
  intros Hl2. rewrite foldl_app. simpl.
  rewrite fill_other by done. apply lookup_insert_eq.
Qed.

End LastRowWins.





End TableFacts.

(** ** Properties of the holiday map *)

Section HolidayFacts.

Local Open Scope list_scope.

Implicit Types (cds : list CalendarDate) (cd : CalendarDate).

Lemma holidays_snoc cds cd :
  holidays (cds ++ [cd])
  = <[cd_date cd := <[cd_service_id cd := exceptionOfRow cd]>
                      (default ∅ (holidays cds !! cd_date cd))]> (holidays cds).
Proof.
  unfold holidays. rewrite foldl_snoc.
  set (h := foldl _ ∅ cds). simpl.
  destruct (h !! cd_date cd) as [inner|] eqn:Hd; [by rewrite Hd|].
  rewrite lookup_insert_eq. simpl. by rewrite insert_insert_eq.
Qed.

Lemma lastForDateAndService_snoc cds cd x :
  lastForDateAndService cd cds →
  ¬ (cd_date x = cd_date cd ∧ cd_service_id x = cd_service_id cd) →
  lastForDateAndService cd (cds ++ [x]).
Proof.
  intros (l1 & l2 & -> & Hl2) Hx. exists l1, (l2 ++ [x]).
  split; [by rewrite <- app_assoc|].
  apply Forall_app. split; [done|]. by constructor.
Qed.

Lemma lastForDateAndService_elem_of cds cd :
  lastForDateAndService cd cds → cd ∈ cds.
Proof.
  intros (l1 & l2 & -> & _). apply elem_of_app. right. left.
Qed.

(** Every stored exception is the last record of its date and service. *)
Lemma holidays_origin cds date inner sid e :
  holidays cds !! date = Some inner → inner !! sid = Some e →
  ∃ cd, lastForDateAndService cd cds ∧ cd_date cd = date
        ∧ cd_service_id cd = sid ∧ e = exceptionOfRow cd.
Proof.
  revert inner. induction cds as [|x cds IH] using rev_ind; intros inner Hd Hs.
  { unfold holidays in Hd. simpl in Hd. by rewrite lookup_empty in Hd. }
  rewrite holidays_snoc in Hd.
  destruct (decide (cd_date x = date)) as [Hdx|Hdx].
  - rewrite Hdx, lookup_insert_eq in Hd. injection Hd as <-.
    destruct (decide (cd_service_id x = sid)) as [Hsx|Hsx].
    + rewrite Hsx, lookup_insert_eq in Hs. injection Hs as <-.
      exists x. split; [|done].
      exists cds, []. split; [done|constructor].
    + rewrite lookup_insert_ne in Hs by done.
      destruct (holidays cds !! date) as [inner0|] eqn:H0; simpl in Hs;
        [|by rewrite lookup_empty in Hs].
      destruct (IH inner0 eq_refl Hs) as (cd & Hlast & Hcd & Hsid & He).
      exists cd. split; [|done].
      apply lastForDateAndService_snoc; [done|]. intros [_ ?]. congruence.
  - rewrite lookup_insert_ne in Hd by done.
    destruct (IH inner Hd Hs) as (cd & Hlast & Hcd & Hsid & He).
    exists cd. split; [|done].
    apply lastForDateAndService_snoc; [done|]. intros [? _]. congruence.
Qed.

Lemma holidays_last cds cd :
  lastForDateAndService cd cds →
  ∃ inner, holidays cds !! cd_date cd = Some inner
           ∧ inner !! cd_service_id cd = Some (exceptionOfRow cd).
Proof.
  intros (l1 & l2 & -> & Hl2).
  induction l2 as [|x l2 IH] using rev_ind.
  - rewrite holidays_snoc. eexists. rewrite lookup_insert_eq.
    split; [done|]. apply lookup_insert_eq.
  - apply Forall_app in Hl2 as [Hl2 Hx]. inversion_clear Hx as [|? ? Hx' _].
    destruct (IH Hl2) as (inner & Hd & Hs).
    replace (l1 ++ cd :: l2 ++ [x]) with ((l1 ++ cd :: l2) ++ [x])
      by (by rewrite <- app_assoc).
    rewrite holidays_snoc.
    destruct (decide (cd_date x = cd_date cd)) as [Hdx|Hdx].
    + rewrite Hdx, lookup_insert_eq, Hd. simpl. eexists. split; [done|].
      rewrite lookup_insert_ne; [done|]. intros ?. by apply Hx'.
    + rewrite lookup_insert_ne by done. eauto.
Qed.

Lemma hasWeekdayRemoved_iff (exceptions : gmap string Exception) :
  hasWeekdayRemoved exceptions
  ↔ ∃ sid e, exceptions !! sid = Some e ∧ type e = Some 2.
Proof.
  unfold hasWeekdayRemoved. rewrite Exists_exists. split.
  - intros (e & He & Ht). apply list_elem_of_fmap in He as ([sid e'] & -> & He).
    apply elem_of_map_to_list in He. eauto.
  - intros (sid & e & He & Ht). exists e. split; [|done].
    apply list_elem_of_fmap. exists (sid, e). split; [done|].
    by apply elem_of_map_to_list.
Qed.

Lemma compactHolidays_lookup (h : gmap string (gmap string Exception)) date :
  compactHolidays h !! date
  = match h !! date with
    | Some exceptions =>
        if decide (hasWeekdayRemoved exceptions) then Some (JBool true) else None
    | None => None
    end.
Proof. unfold compactHolidays. rewrite lookup_omap. by destruct (h !! date). Qed.

(** The dates of the emitted map are those with a removal among the
    records that count. *)
Lemma compactHolidays_true_iff cds date :
  compactHolidays (holidays cds) !! date = Some (JBool true)
  ↔ ∃ cd, lastForDateAndService cd cds ∧ cd_date cd = date
          ∧ parseInt (cd_exception_type cd) = Some 2.
Proof.
  rewrite compactHolidays_lookup. split.
  - destruct (holidays cds !! date) as [inner|] eqn:Hd; [|done].
    case_decide as Hrem; [|done]. intros _.
    apply hasWeekdayRemoved_iff in Hrem as (sid & e & He & Ht).
    destruct (holidays_origin _ _ _ _ _ Hd He) as (cd & Hlast & Hcd & _ & ->).
    eauto.
  - intros (cd & Hlast & <- & Ht).
    destruct (holidays_last _ _ Hlast) as (inner & -> & Hs).
    rewrite decide_True; [done|].
    apply hasWeekdayRemoved_iff. eauto.
Qed.

(** The map of [process-gtfs.js] against the rule of the specification:
    on MLK Day the sample feed adds the exception-only service H1 and
    removes the weekday service WD, and the map of that script has [true]
    there where the rule gives 2; on New Year's Day, where WD is removed,
    it has [true] where the rule gives 1; with the addition of H1 alone
    the date is left out where the rule gives 2. *)
Lemma compactHolidays_flag_sample :
  let cal := calendar feedHolidayOnly in
  let cds := calendarDates feedHolidayOnly in
  compactHolidays (holidays cds) !! "20260119" = Some (JBool true)
  ∧ holidayOverride_spec cal cds "20260119" = Some (JNum 2)
  ∧ compactHolidays (holidays cds) !! "20260101" = Some (JBool true)
  ∧ holidayOverride_spec cal cds "20260101" = Some (JNum 1)
  ∧ compactHolidays (holidays (take 1 cds)) !! "20260119" = None
  ∧ holidayOverride_spec cal (take 1 cds) "20260119" = Some (JNum 2)
  ∧ ¬ (∀ date, compactHolidays (holidays cds) !! date
               = holidayOverride_spec cal cds date).
Proof.
  intros cal cds.
  repeat (split; [vm_compute; reflexivity|]).
  intros H. specialize (H "20260119"). vm_compute in H. discriminate.
Qed.

(** X29. For exception records whose service identifiers and dates are
    plain keys, the holiday map of [process-gtfs.js] holds no other value
    than the flag [true], and it flags a date exactly when an exception
    record that counts for its date and service, the last one read for
    them, removes a service on that date, whatever the service: the
    script does not look the service up. *)
Theorem compactHolidays_flag cds date :
  plainExceptions cds →
  let hm := compactHolidays (holidays cds) in
  (∀ v, hm !! date = Some v → v = JBool true)
  ∧ (hm !! date = Some (JBool true)
     ↔ ∃ cd, lastForDateAndService cd cds ∧ cd_date cd = date
             ∧ parseInt (cd_exception_type cd) = Some 2)
  ∧ (hm !! date = None
     ↔ ∀ cd, lastForDateAndService cd cds → cd_date cd = date →
             parseInt (cd_exception_type cd) ≠ Some 2).
Proof.
  intros _ hm. subst hm.
  assert (Hval : ∀ v, compactHolidays (holidays cds) !! date = Some v →
                      v = JBool true).
  { intros v. rewrite compactHolidays_lookup.
    destruct (holidays cds !! date); [|done]. case_decide; congruence. }
  split; [exact Hval|]. split; [apply compactHolidays_true_iff|].
  split.
  - intros Hnone cd Hlast Hd Ht.
    assert (Hsome : compactHolidays (holidays cds) !! date = Some (JBool true))
      by (apply compactHolidays_true_iff; eauto).
    congruence.
  - intros Hno.
    destruct (compactHolidays (holidays cds) !! date) as [v|] eqn:Hv; [|done].
    rewrite (Hval v eq_refl) in Hv.
    apply compactHolidays_true_iff in Hv as (cd & Hlast & Hd & Ht).
    exfalso. by eapply Hno.
Qed.

Lemma compactHolidays_flag_witness :
  compactHolidays (holidays (calendarDates feedHolidayOnly)) !! "20260101"
  = Some (JBool true)
  ∧ compactHolidays (holidays (take 1 (calendarDates feedHolidayOnly)))
      !! "20260119" = None.
Proof.
  split.
  - apply (proj1 (proj2 (compactHolidays_flag (calendarDates feedHolidayOnly)
                           "20260101" ltac:(apply (bool_decide_unpack _);
                                            vm_compute; exact I)))).
    exists (mkCalendarDate "WD" "20260101" "2" "New Year").
    split; [|vm_compute; split; reflexivity].
    exists (take 2 (calendarDates feedHolidayOnly)), [].
    split; [reflexivity|constructor].
  - apply (proj2 (proj2 (compactHolidays_flag
                           (take 1 (calendarDates feedHolidayOnly))
                           "20260119" ltac:(apply (bool_decide_unpack _);
                                            vm_compute; exact I)))).
    intros cd Hlast _ Ht. apply lastForDateAndService_elem_of in Hlast.
    vm_compute in Hlast. apply list_elem_of_singleton in Hlast as ->.
    vm_compute in Ht. discriminate Ht.
Defined.

End HolidayFacts.

(** ** Properties of the schedule buckets *)

Section BucketFacts.

Local Open Scope list_scope.

Implicit Types (e x y : Entry) (l arr : list Entry).

Lemma insertByTime_Permutation x l : insertByTime x l ≡ₚ x :: l.
Proof.
  induction l as [|y l IH]; [done|]. simpl. case_decide; [done|].
  rewrite IH. apply perm_swap.
Qed.

Lemma sortByTime_Permutation l : sortByTime l ≡ₚ l.
Proof.
  induction l as [|x l IH]; [done|]. unfold sortByTime in *. simpl.
  by rewrite insertByTime_Permutation, IH.
Qed.

Lemma insertByTime_sorted x l :
  StronglySorted time_le l → StronglySorted time_le (insertByTime x l).
Proof.
  induction 1 as [|y l Hl IH Hy]; simpl.
  - repeat constructor.
  - case_decide as Hxy.
    + constructor; [by constructor|].
      constructor; [done|].
      eapply Forall_impl; [exact Hy|]. unfold time_le. intros; lia.
    + constructor; [done|].
      rewrite insertByTime_Permutation. constructor; [|done].
      unfold time_le. lia.
Qed.

Lemma sortByTime_sorted l : StronglySorted time_le (sortByTime l).
Proof.
  induction l as [|x l IH]; [constructor|].
  unfold sortByTime in *. simpl. by apply insertByTime_sorted.
Qed.

Lemma filterFrom_dedupeFrom pre rest :
  filterFrom (pre ++ rest) (length pre) rest = dedupeFrom (last pre) rest.
Proof.
  revert pre. induction rest as [|item rest IH]; intros pre; [done|].
  simpl. f_equal.
  - unfold keepAt. destruct pre as [|x pre] using rev_ind; [done|].
    rewrite last_snoc, length_app. simpl.
    rewrite bool_decide_eq_false_2 by lia. simpl.
    replace (length pre + 1 - 1)%nat with (length pre) by lia.
    rewrite <- app_assoc. simpl. by rewrite list_lookup_middle.
  - specialize (IH (pre ++ [item])).
    rewrite <- app_assoc, length_app, last_snoc in IH. simpl in IH.
    by replace (length pre + 1)%nat with (S (length pre)) in IH by lia.
Qed.

Lemma dedupe_dedupeFrom arr : dedupe arr = dedupeFrom None arr.
Proof. apply (filterFrom_dedupeFrom [] arr). Qed.

Lemma dedupeFrom_sublist prev arr : dedupeFrom prev arr `sublist_of` arr.
Proof.
  revert prev. induction arr as [|item rest IH]; intros prev; [done|].
  simpl. destruct (match prev with None => true | Some p => _ end); simpl.
  - by apply sublist_skip.
  - by apply sublist_cons.
Qed.

Lemma StronglySorted_sublist_of {A} (R : relation A) (l1 l2 : list A) :
  l1 `sublist_of` l2 → StronglySorted R l2 → StronglySorted R l1.
Proof.
  induction 1 as [|z l1 l2 Hsub IH|z l1 l2 Hsub IH]; intros Hs; [done|..].
  - apply StronglySorted_inv in Hs as [Hs Hz]. constructor; [by apply IH|].
    rewrite Forall_forall in Hz. apply Forall_forall. intros y Hy.
    apply Hz. by eapply elem_of_sublist.
  - apply StronglySorted_inv in Hs as [Hs _]. by apply IH.
Qed.

(** The filter leaves no two neighbours with the same time and train. *)
Lemma dedupeFrom_neighbours p arr :
  HdRel distinctKey p (dedupeFrom (Some p) arr)
  ∧ Sorted distinctKey (dedupeFrom (Some p) arr).
Proof.
  revert p. induction arr as [|item rest IH]; intros p; [by split; constructor|].
  simpl. destruct (IH item) as [Hhd Hs]. case_bool_decide as Hk; simpl.
  - split; constructor; try done. unfold distinctKey. tauto.
  - split; [|done].
    assert (t item = t p ∧ n item = n p) as [Ht Hn].
    { destruct (decide (t item = t p)), (decide (n item = n p)); tauto. }
    destruct Hhd as [|b l' Hb]; constructor.
    unfold distinctKey in *. rewrite <- Ht, <- Hn. done.
Qed.

Lemma dedupe_neighbours arr : Sorted distinctKey (dedupe arr).
Proof.
  rewrite dedupe_dedupeFrom.
  destruct arr as [|item rest]; [constructor|]. simpl.
  destruct (dedupeFrom_neighbours item rest). by constructor.
Qed.

Lemma dedupe_sort_elem_of e l : e ∈ dedupe (sortByTime l) → e ∈ l.
Proof.
  rewrite dedupe_dedupeFrom. intros He. rewrite <- (sortByTime_Permutation l).
  eapply elem_of_sublist; [exact He|apply dedupeFrom_sublist].
Qed.

Lemma dedupe_sort_sorted l : StronglySorted time_le (dedupe (sortByTime l)).
Proof.
  rewrite dedupe_dedupeFrom. eapply StronglySorted_sublist_of;
    [apply dedupeFrom_sublist|apply sortByTime_sorted].
Qed.

(** The emitted bucket in terms of the bucket filled by [forEach]. *)
Lemma snapshotBucket_unfold feed snap stationId dir :
  compact feed = Some snap →
  ∃ schedule,
    forEachStopTime feed (stopTimes feed) ∅ = Some schedule
    ∧ snapshotBucket snap stationId dir
      = compactEntry <$>
          dedupe (sortByTime (match schedule !! stationId with
                              | Some b => bucket dir b
                              | None => []
                              end)).
Proof.
  unfold compact. intros Hc.
  destruct (forEachStopTime feed (stopTimes feed) ∅) as [schedule|];
    [|discriminate].
  simpl in Hc. injection Hc as <-. exists schedule. split; [done|].
  unfold snapshotBucket, compactSchedule, sortAndDedupe. simpl.
  rewrite !lookup_fmap.
  destruct (schedule !! stationId) as [b|]; [|done].
  simpl. by destruct dir.
Qed.

(** Every bucket of a document of the embedding is ascending in the
    minute. *)
Lemma snapshotBucket_sorted feed snap stationId dir :
  compact feed = Some snap →
  Sorted minute_le (snapshotBucket snap stationId dir).
Proof.
  intros Hc.
  destruct (snapshotBucket_unfold feed snap stationId dir Hc) as (sch & _ & ->).
  apply StronglySorted_Sorted.
  apply (StronglySorted_fmap compactEntry time_le minute_le);
    [done|apply dedupe_sort_sorted].
Qed.

End BucketFacts.

(** ** Properties of the emitted schedule *)

Section ScheduleFacts.

Local Open Scope list_scope.

Lemma elem_of_bucket_push {A} (dir dir0 : Direction) (e e0 : A) (b : Buckets A) :
  e ∈ bucket dir (push dir0 e0 b) →
  e ∈ bucket dir b ∨ (dir = dir0 ∧ e = e0).
Proof.
  destruct dir, dir0; simpl; rewrite ?elem_of_app, ?list_elem_of_singleton;
    tauto.
Qed.

Lemma processStopTime_filledFrom feed all schedule st schedule' :
  st ∈ all → filledFrom feed all schedule →
  processStopTime feed schedule st = Some schedule' →
  filledFrom feed all schedule'.
Proof.
  intros Hst Hinv. unfold processStopTime.
  destruct (tripInfo (trips feed) !! st_trip_id st) as [trip|] eqn:Htrip;
    [|by intros [= <-]].
  destruct (stopToStation (stops feed) !! st_stop_id st) as [sid0|] eqn:Hstop;
    [|by intros [= <-]].
  case_decide as Hempty; [by intros [= <-]|].
  destruct (parseMinutes (st_departure_time st)) as [minutes|] eqn:Hmin;
    [|discriminate].
  simpl. intros [= <-]. intros sid b dir e Hb He.
  destruct (decide (sid0 = sid)) as [->|Hne].
  - rewrite lookup_insert_eq in Hb. injection Hb as <-.
    apply elem_of_bucket_push in He as [He|[-> ->]].
    + destruct (schedule !! sid) as [b0|] eqn:Hb0; simpl in He.
      * by eapply Hinv.
      * destruct dir; by apply elem_of_nil in He.
    + exists st. split; [done|]. exists trip. by repeat split.
  - rewrite lookup_insert_ne in Hb by done. by eapply Hinv.
Qed.

Lemma forEachStopTime_filledFrom feed all sts schedule schedule' :
  (∀ st, st ∈ sts → st ∈ all) → filledFrom feed all schedule →
  forEachStopTime feed sts schedule = Some schedule' →
  filledFrom feed all schedule'.
Proof.
  revert schedule. induction sts as [|st sts IH]; intros schedule Hsub Hinv.
  - by intros [= <-].
  - simpl.
    destruct (processStopTime feed schedule st) as [schedule1|] eqn:Hstep;
      [|discriminate].
    simpl. apply IH.
    + intros st' Hst'. apply Hsub. by right.
    + eapply processStopTime_filledFrom; [|done..]. apply Hsub. by left.
Qed.

(** Every emitted tuple is the compact form of an entry pushed for a
    stop-time record of the feed. *)
Lemma snapshotBucket_origin feed snap stationId dir d :
  compact feed = Some snap → d ∈ snapshotBucket snap stationId dir →
  ∃ st e, st ∈ stopTimes feed ∧ pushedBy feed st stationId dir e
          ∧ d = compactEntry e.
Proof.
  intros Hc Hd.
  destruct (snapshotBucket_unfold feed snap stationId dir Hc)
    as (schedule & Hrun & Hbucket).
  rewrite Hbucket in Hd. apply list_elem_of_fmap in Hd as (e & -> & He).
  apply dedupe_sort_elem_of in He.
  destruct (schedule !! stationId) as [b|] eqn:Hb;
    [|by apply elem_of_nil in He].
  assert (Hinv : filledFrom feed (stopTimes feed) schedule).
  { eapply forEachStopTime_filledFrom; [| |exact Hrun]; [done|].
    intros sid b' dir' e'. by rewrite lookup_empty. }
  destruct (Hinv _ _ _ _ Hb He) as (st & Hst & Hpush). eauto.
Qed.

Lemma classify_weekday_iff (service : option Service) :
  classify service = "weekday"
  ↔ ∃ svc, service = Some svc ∧ weekday svc = true.
Proof.
  unfold classify. split.
  - destruct service as [svc|]; [|done].
    destruct (weekday svc) eqn:Hw; [eauto|]. by destruct (weekend svc).
  - by intros (svc & -> & ->).
Qed.

(** The document of [process-gtfs.js] against the encoding of the
    specification: the sample feed runs train M101 under the service H1,
    which the calendar map does not have, and the tuple of that script
    carries service type 1 where the encoding gives 2. *)
Lemma serviceType_two_way_sample :
  services (calendar feedHolidayOnly) !! "H1" = None
  ∧ (λ snap, snapshotBucket snap "sf" northbound) <$> compact feedHolidayOnly
    = Some [mkDeparture 500 "M101" 0 1]
  ∧ ¬ serviceTypeEncoding_spec (compact feedHolidayOnly) feedHolidayOnly.
Proof.
  assert (Hrun : (λ snap, snapshotBucket snap "sf" northbound)
                   <$> compact feedHolidayOnly
                 = Some [mkDeparture 500 "M101" 0 1])
    by (vm_compute; reflexivity).
  split; [vm_compute; reflexivity|]. split; [exact Hrun|].
  intros Hspec.
  destruct (compact feedHolidayOnly) as [snap|] eqn:Hc; [|discriminate].
  simpl in Hrun. injection Hrun as Hrun.
  destruct (Hspec snap "sf" northbound (mkDeparture 500 "M101" 0 1) eq_refl)
    as (st & trip & Hst & Htrip & _ & _ & Hmod).
  { rewrite Hrun. left. }
  apply list_elem_of_singleton in Hst as ->.
  vm_compute in Htrip. injection Htrip as <-.
  specialize (Hmod eq_refl). discriminate Hmod.
Qed.

(** X28. In the document of [process-gtfs.js], for a feed whose
    identifiers are plain keys, every tuple comes from a stop-time record
    of the feed whose trip and station resolve, and its service type is 0
    or 1: it is 0 exactly when the trip's service is in the calendar map
    with the Monday flag set, and 1 otherwise, so also for a service that
    the calendar map does not have; that script emits no 2. *)
Theorem serviceType_two_way feed snap stationId dir d :
  plainIds feed →
  compact feed = Some snap →
  d ∈ snapshotBucket snap stationId dir →
  (serviceType d = 0 ∨ serviceType d = 1)
  ∧ ∃ st trip,
      st ∈ stopTimes feed
      ∧ tripInfo (trips feed) !! st_trip_id st = Some trip
      ∧ stopToStation (stops feed) !! st_stop_id st = Some stationId
      ∧ trainNumber d = trainNum trip
      ∧ parseMinutes (st_departure_time st) = Some (minute d)
      ∧ (serviceType d = 0 ↔
           ∃ svc, services (calendar feed) !! serviceId trip = Some svc
                  ∧ weekday svc = true)
      ∧ (services (calendar feed) !! serviceId trip = None →
           serviceType d = 1).
Proof.
  intros _ Hc Hd.
  destruct (snapshotBucket_origin _ _ _ _ _ Hc Hd)
    as (st & e & Hst & (trip & Htrip & Hstop & _ & Hmin & Hn & Hs) & ->).
  split; [simpl; case_decide; auto|].
  exists st, trip. repeat split; try done.
  - simpl. case_decide as Hw; [|done]. intros _.
    apply classify_weekday_iff. by rewrite <- Hs.
  - simpl. intros Hsvc. apply classify_weekday_iff in Hsvc.
    rewrite <- Hs in Hsvc. by rewrite decide_True.
  - simpl. intros Hnone. rewrite Hs, Hnone. done.
Qed.

Lemma serviceType_two_way_witness :
  ∃ snap, compact feedHolidayOnly = Some snap
          ∧ mkDeparture 500 "M101" 0 1 ∈ snapshotBucket snap "sf" northbound
          ∧ (serviceType (mkDeparture 500 "M101" 0 1) = 0
             ∨ serviceType (mkDeparture 500 "M101" 0 1) = 1).
Proof.
  assert (Hplain : plainIds feedHolidayOnly)
    by (apply (bool_decide_unpack _); vm_compute; exact I).
  assert (Hrun : (λ snap, snapshotBucket snap "sf" northbound)
                   <$> compact feedHolidayOnly
                 = Some [mkDeparture 500 "M101" 0 1])
    by (vm_compute; reflexivity).
  destruct (compact feedHolidayOnly) as [snap|] eqn:Hc; [|discriminate].
  simpl in Hrun. injection Hrun as Hrun.
  assert (Hd : mkDeparture 500 "M101" 0 1 ∈ snapshotBucket snap "sf" northbound)
    by (rewrite Hrun; left).
  exists snap. split; [reflexivity|]. split; [exact Hd|].
  exact (proj1 (serviceType_two_way feedHolidayOnly snap "sf" northbound
                  (mkDeparture 500 "M101" 0 1) Hplain Hc Hd)).
Defined.

(** C5 (the code departs from it). Train 101 is listed under two weekday
    services at 05:00 and a weekend train leaves at the same minute
    between them: the emitted bucket is ascending, and it holds the
    weekday departure of train 101 at minute 300 twice, because the filter
    compares each entry with its neighbour only. *)
Theorem dedupe_keeps_separated_duplicates :
  let b := [mkDeparture 300 "101" 0 0; mkDeparture 300 "221" 0 1;
            mkDeparture 300 "101" 0 0] in
  (λ snap, snapshotBucket snap "sf" northbound) <$> compact feedRepeatedTrip
  = Some b
  ∧ Sorted minute_le b
  ∧ ¬ noDuplicates_spec b.
Proof.
  intros b. split; [vm_compute; reflexivity|]. split.
  - subst b. repeat constructor; unfold minute_le; simpl; lia.
  - intros Hnd. apply (Hnd 0%nat 2%nat (mkDeparture 300 "101" 0 0)
                         (mkDeparture 300 "101" 0 0)); done.
Qed.

End ScheduleFacts.

(** ** The query on an emitted snapshot *)

Section SnapshotQuery.

(** The buckets of a document of the embedding are ascending, so the
    result of a query between two stations of it is ascending. *)
Lemma query_snapshot_sorted feed snap originId destId dir svc now :
  compact feed = Some snap →
  Sorted minute_le
    (filterTrainsByDestination (snapshotBucket snap originId dir)
                               (snapshotBucket snap destId dir) svc now).
Proof.
  intros Hc. apply Sorted_minute_filter. by eapply snapshotBucket_sorted.
Qed.

End SnapshotQuery.

(** * Further properties of the query engine *)

Section ClockExtras.

Lemma NoDup_fmap_inj_on {A B} (f : A → B) (l : list A) x y :
  NoDup (f <$> l) → x ∈ l → y ∈ l → f x = f y → x = y.
Proof.
  induction l as [|a l IH]; intros Hnd Hx Hy Hf; [by apply elem_of_nil in Hx|].
  rewrite fmap_cons in Hnd. apply NoDup_cons in Hnd as [Ha Hnd].
  apply elem_of_cons in Hx as [->|Hx]; apply elem_of_cons in Hy as [->|Hy].
  - done.
  - exfalso. apply Ha. rewrite Hf. by apply list_elem_of_fmap_2.
  - exfalso. apply Ha. rewrite <- Hf. by apply list_elem_of_fmap_2.
  - by apply IH.
Qed.

Lemma formatTime_day_NoDup : NoDup (formatTime <$> seqZ 0 1440).
Proof. refine (proj1 (bool_decide_eq_true _) _). vm_compute. reflexivity. Qed.

Lemma formatTime_mod m : 0 ≤ m → formatTime m = formatTime (m mod 1440).
Proof.
  intros Hm.
  pose proof (Z.mod_pos_bound m 1440 ltac:(lia)) as Hr.
  rewrite !formatTime_unfold by lia. unfold formatClockTime_spec.
  replace ((m mod 1440) / 60 mod 24) with (m / 60 mod 24)
    by (Z.div_mod_to_equations; lia).
  replace ((m mod 1440) mod 60) with (m mod 60)
    by (Z.div_mod_to_equations; lia).
  done.
Qed.

(** X1. Two non-negative minute values of the safe integer range are
    displayed alike exactly when they are the same minute of the day. *)
Theorem formatTime_same_display m1 m2 :
  0 ≤ m1 ≤ MAX_SAFE_INTEGER → 0 ≤ m2 ≤ MAX_SAFE_INTEGER →
  (formatTime m1 = formatTime m2 ↔ m1 mod 1440 = m2 mod 1440).
Proof.
  intros [H1 _] [H2 _]. split.
  - rewrite (formatTime_mod m1), (formatTime_mod m2) by done.
    apply (NoDup_fmap_inj_on formatTime (seqZ 0 1440));
      [apply formatTime_day_NoDup|..]; apply elem_of_seqZ;
      pose proof (Z.mod_pos_bound m1 1440); pose proof (Z.mod_pos_bound m2 1440);
      lia.
  - intros Heq. by rewrite (formatTime_mod m1), (formatTime_mod m2), Heq.
Qed.

Lemma formatTime_same_display_witness :
  formatTime 1454 = formatTime 14 ∧ (formatTime 310 = formatTime 1030 → False).
Proof.
  assert (Hsafe : ∀ m, 0 ≤ m ≤ 2000 → 0 ≤ m ≤ MAX_SAFE_INTEGER)
    by (unfold MAX_SAFE_INTEGER; intros; lia).
  assert (H14 : 0 ≤ 14 ≤ MAX_SAFE_INTEGER) by (apply Hsafe; lia).
  assert (H1454 : 0 ≤ 1454 ≤ MAX_SAFE_INTEGER) by (apply Hsafe; lia).
  assert (H310 : 0 ≤ 310 ≤ MAX_SAFE_INTEGER) by (apply Hsafe; lia).
  assert (H1030 : 0 ≤ 1030 ≤ MAX_SAFE_INTEGER) by (apply Hsafe; lia).
  split.
  - apply (proj2 (formatTime_same_display 1454 14 H1454 H14)). reflexivity.
  - intros Heq.
    apply (proj1 (formatTime_same_display 310 1030 H310 H1030)) in Heq.
    vm_compute in Heq. discriminate Heq.
Defined.

Lemma formatTime_hour_minute hh mm :
  0 ≤ hh → 0 ≤ mm < 60 →
  formatTime (hh * 60 + mm)
  = numberToString (hour12 (hh mod 24)) ++ ":" ++ twoDigits mm
      ++ ampm (hh mod 24).
Proof.
  intros Hh Hm. rewrite formatTime_unfold by lia.
  unfold formatClockTime_spec, hour12, ampm.
  replace ((hh * 60 + mm) / 60) with hh by (Z.div_mod_to_equations; lia).
  replace ((hh * 60 + mm) mod 60) with mm by (Z.div_mod_to_equations; lia).
  done.
Qed.

(** X2. The cursor of a wall-clock time [h:m] is displayed as that time:
    the 1440 minutes added before 3:00 do not show. *)
Theorem formatTime_of_cursor tz now h m :
  0 ≤ h ≤ 23 → 0 ≤ m ≤ 59 →
  formatTime (getCurrentMinutes tz now (Some h) (Some m))
  = numberToString (hour12 h) ++ ":" ++ twoDigits m ++ ampm h.
Proof.
  intros Hh Hm. rewrite getCurrentMinutes_cases by done.
  assert (Hmod : h mod 24 = h) by (apply Z.mod_small; lia).
  case_decide.
  - rewrite formatTime_hour_minute by lia. by rewrite Hmod.
  - replace (h * 60 + m + 1440) with ((h + 24) * 60 + m) by lia.
    rewrite formatTime_hour_minute by lia.
    replace ((h + 24) mod 24) with h by (Z.div_mod_to_equations; lia).
    done.
Qed.

Lemma formatTime_of_cursor_witness :
  formatTime (getCurrentMinutes (fixedZone 0) 0 (Some 1) (Some 30)) = "1:30am".
Proof.
  apply (formatTime_of_cursor (fixedZone 0) 0 1 30); lia.
Defined.

End ClockExtras.

Section QueryExtras.

Implicit Types (origin dest : list Departure) (svc now : Z).

Lemma filterTrainsByDestination_nil_when origin dest svc now :
  (∀ d, d ∈ origin → serviceType d = svc → now ≤ minute d →
        minute d ≤ endOfDay → trainNumber d ∈ destTrainNums dest svc → False) →
  filterTrainsByDestination origin dest svc now = [].
Proof.
  intros Hno. apply elem_of_nil_inv. intros d Hd.
  unfold filterTrainsByDestination in Hd.
  apply list_elem_of_filter in Hd as [(? & ? & ? & ?) ?]. eauto.
Qed.

(** X3. A cursor beyond minute 1560 returns no departure, whatever the
    schedule holds; the cursor of a wall-clock time from 2:01 to 2:59 is
    such a cursor. *)
Theorem no_departure_past_horizon origin dest svc :
  (∀ now, 1560 < now → filterTrainsByDestination origin dest svc now = [])
  ∧ ∀ tz clock m, 1 ≤ m ≤ 59 →
      filterTrainsByDestination origin dest svc
        (getCurrentMinutes tz clock (Some 2) (Some m)) = [].
Proof.
  split.
  - intros now Hnow. apply filterTrainsByDestination_nil_when.
    unfold endOfDay. intros; lia.
  - intros tz clock m Hm. apply filterTrainsByDestination_nil_when.
    rewrite getCurrentMinutes_cases by lia. rewrite decide_False by lia.
    unfold endOfDay. intros; lia.
Qed.

Lemma no_departure_past_horizon_witness :
  filterTrainsByDestination sampleOriginTrains sampleDestTrains 1 1561 = []
  ∧ filterTrainsByDestination sampleOriginTrains sampleDestTrains 1
      (getCurrentMinutes (fixedZone 0) 0 (Some 2) (Some 30)) = [].
Proof.
  split.
  - apply (proj1 (no_departure_past_horizon
                    sampleOriginTrains sampleDestTrains 1) 1561). lia.
  - apply (proj2 (no_departure_past_horizon
                    sampleOriginTrains sampleDestTrains 1) (fixedZone 0) 0 30).
    lia.
Defined.

(** X4. Moving the cursor forward only removes departures: the result at
    a later cursor is the result at the earlier one without the departures
    before the later cursor. *)
Theorem later_cursor_filters origin dest svc now1 now2 :
  now1 ≤ now2 →
  filterTrainsByDestination origin dest svc now2
  = filter (λ d, now2 ≤ minute d)
           (filterTrainsByDestination origin dest svc now1).
Proof.
  intros Hle. unfold filterTrainsByDestination.
  rewrite list_filter_filter. apply list_filter_iff. intros d. intuition lia.
Qed.

Lemma later_cursor_filters_witness :
  filterTrainsByDestination sampleOriginTrains sampleDestTrains 1 410
  = filter (λ d, 410 ≤ minute d)
           (filterTrainsByDestination sampleOriginTrains sampleDestTrains 1 300).
Proof.
  apply (later_cursor_filters sampleOriginTrains sampleDestTrains 1 300 410).
  lia.
Defined.

(** X5. When the destination lists no train under the requested service
    type, so also when it is empty, the result is empty. *)
Theorem no_service_at_destination origin dest svc now :
  (∀ e, e ∈ dest → serviceType e ≠ svc) →
  filterTrainsByDestination origin dest svc now = [].
Proof.
  intros Hno. apply filterTrainsByDestination_nil_when.
  intros d _ _ _ _ Hd. apply elem_of_destTrainNums in Hd.
  apply stopsAt_exists in Hd as (e & He & Hs & _). by apply (Hno e).
Qed.

Lemma no_service_at_destination_witness :
  filterTrainsByDestination sampleOriginTrains sampleDestTrains 3 300 = []
  ∧ filterTrainsByDestination sampleOriginTrains [] 1 300 = [].
Proof.
  split.
  - apply (no_service_at_destination sampleOriginTrains sampleDestTrains 3 300).
    intros e He. vm_compute in He.
    repeat (apply elem_of_cons in He as [->|He]; [discriminate|]).
    by apply elem_of_nil in He.
  - apply (no_service_at_destination sampleOriginTrains [] 1 300).
    intros e He. by apply elem_of_nil in He.
Defined.

End QueryExtras.

Section ServiceDayExtras.

(** X6. Without holiday overrides and in a zone of constant offset, the
    answer depends on the service day alone, the day that starts at 3:00
    local time: Weekend when that day is a Saturday or a Sunday, Weekday
    otherwise. *)
Theorem service_day_starts_at_three off date :
  Z.abs date ≤ 8640000000000000 →
  Z.abs (date - msPerDay) ≤ 8640000000000000 →
  let serviceDay := (date + off - 3 * msPerHour) / msPerDay in
  getServiceType (fixedZone off) date ∅
  = Some (if decide ((serviceDay + 4) mod 7 = 0 ∨ (serviceDay + 4) mod 7 = 6)
          then "weekend" else "weekday").
Proof.
  intros Hdate Hprev serviceDay.
  unfold getServiceType, timeClip. rewrite decide_True by done. simpl.
  replace (24 * 60 * 60 * 1000) with msPerDay by reflexivity.
  assert (Hday : getDay (fixedZone off)
                   (if decide (getHours (fixedZone off) date < 3)
                    then date - msPerDay else date)
                 = (serviceDay + 4) mod 7).
  { subst serviceDay.
    unfold getDay, weekDay, getHours, localTime, fixedZone, msPerDay, msPerHour.
    case_decide; f_equal; Z.div_mod_to_equations; lia. }
  case_decide.
  - rewrite decide_True by done. simpl. rewrite lookup_empty.
    rewrite !decide_False by done. rewrite Hday.
    by repeat case_decide.
  - simpl. rewrite lookup_empty.
    rewrite !decide_False by done. rewrite Hday.
    by repeat case_decide.
Qed.

Lemma service_day_starts_at_three_witness :
  getServiceType (fixedZone (-8 * msPerHour))
    (localInstant (-8 * msPerHour) 2026 1 19 2 59) ∅ = Some "weekend"
  ∧ getServiceType (fixedZone (-8 * msPerHour))
      (localInstant (-8 * msPerHour) 2026 1 19 3 0) ∅ = Some "weekday".
Proof.
  split.
  - rewrite (service_day_starts_at_three (-8 * msPerHour)
               (localInstant (-8 * msPerHour) 2026 1 19 2 59));
      [vm_compute; reflexivity|vm_compute; discriminate..].
  - rewrite (service_day_starts_at_three (-8 * msPerHour)
               (localInstant (-8 * msPerHour) 2026 1 19 3 0));
      [vm_compute; reflexivity|vm_compute; discriminate..].
Defined.

(** X7. The holiday map that [process-gtfs.js] emits holds the flag
    [true] only, which [getServiceType] does not read as an override: with
    that map the answer is the one of the empty map. *)
Theorem flag_holidays_not_read tz date cds :
  getServiceType tz date (compactHolidays (holidays cds))
  = getServiceType tz date ∅.
Proof.
  unfold getServiceType.
  destruct (timeClip date) as [now|]; [|done]. simpl.
  destruct (if decide (getHours tz now < 3)
            then timeClip (now - 24 * 60 * 60 * 1000) else Some now)
    as [now'|]; [|done].
  simpl. rewrite compactHolidays_lookup, lookup_empty.
  destruct (holidays cds !! dateStr now') as [exceptions|];
    repeat case_decide; congruence.
Qed.

(** X8. [getServiceType] fails (the [RangeError] of [toISOString]) exactly
    on an invalid date, or when the date is valid, before 3:00, and lies
    less than a day after the earliest valid instant; otherwise it
    answers 'weekday', 'weekend' or 'modified'. *)
Theorem getServiceType_defined tz date holidays :
  (is_Some (getServiceType tz date holidays)
   ↔ Z.abs date ≤ 8640000000000000
     ∧ (getHours tz date < 3 → Z.abs (date - msPerDay) ≤ 8640000000000000))
  ∧ ∀ r, getServiceType tz date holidays = Some r →
         r = "weekday" ∨ r = "weekend" ∨ r = "modified".
Proof.
  unfold getServiceType, timeClip.
  replace (24 * 60 * 60 * 1000) with msPerDay by reflexivity.
  split.
  - split.
    + intros [r Hr]. case_decide as Hd; [|discriminate]. simpl in Hr.
      split; [done|]. intros Hh. rewrite decide_True in Hr by done.
      case_decide; [done|discriminate].
    + intros [Hd Hh]. rewrite decide_True by done. simpl.
      case_decide as H3.
      * rewrite decide_True by auto. simpl. repeat case_decide; eauto.
      * simpl. repeat case_decide; eauto.
  - intros r. case_decide; [|discriminate]. simpl.
    case_decide; [case_decide; [|discriminate]|]; simpl;
      repeat case_decide; intros [= <-]; auto.
Qed.

Lemma getServiceType_defined_witness :
  is_Some (getServiceType (fixedZone 0) 0 testHolidays)
  ∧ getServiceType (fixedZone 0) (-8640000000000000) ∅ = None.
Proof.
  split.
  - apply (proj1 (getServiceType_defined (fixedZone 0) 0 testHolidays)).
    split; [vm_compute; discriminate|]. intros _. vm_compute. discriminate.
  - destruct (getServiceType (fixedZone 0) (-8640000000000000) ∅)
      as [r|] eqn:Hr; [|reflexivity].
    exfalso.
    assert (Hsome : is_Some
              (getServiceType (fixedZone 0) (-8640000000000000) ∅))
      by (rewrite Hr; eauto).
    apply (proj1 (getServiceType_defined (fixedZone 0) (-8640000000000000) ∅))
      in Hsome as [_ Hprev].
    assert (H3 : getHours (fixedZone 0) (-8640000000000000) < 3)
      by (vm_compute; reflexivity).
    specialize (Hprev H3). vm_compute in Hprev. by apply Hprev.
Defined.

End ServiceDayExtras.

(** * Further properties of the compactor *)

Section TimeParsing.

Lemma digit_not_colon c :
  is_Some (digitValue 10 c) → Ascii.eqb c ":" = false.
Proof.
  intros Hd. destruct (Ascii.eqb_spec c ":") as [->|]; [|done].
  vm_compute in Hd. by destruct Hd.
Qed.

Lemma split_digits_end a :
  allDecimalDigits a = true → split ":" a = [a].
Proof.
  induction a as [|c a IH]; [done|]. simpl.
  intros [Hc Ha]%andb_prop. apply bool_decide_eq_true in Hc.
  rewrite (digit_not_colon c Hc), (IH Ha). done.
Qed.

Lemma split_digits a rest :
  allDecimalDigits a = true →
  split ":" (a ++ String ":" rest) = a :: split ":" rest.
Proof.
  induction a as [|c a IH]; [done|].
  intros [Hc Ha]%andb_prop. apply bool_decide_eq_true in Hc.
  change (String c a ++ String ":" rest) with (String c (a ++ String ":" rest)).
  cbn [split]. rewrite (digit_not_colon c Hc), (IH Ha). done.
Qed.

Lemma toNumber_digits a :
  allDecimalDigits a = true → toNumber a = Some (digitsValue a).
Proof. intros Ha. unfold toNumber. by rewrite Ha. Qed.

(** X9. A departure time whose first two fields are strings of decimal
    digits gives [hours * 60 + minutes]: the hour is not reduced modulo 24,
    and the seconds, like anything after the second colon, are not read. *)
Theorem parseMinutes_fields hh mm rest :
  allDecimalDigits hh = true → allDecimalDigits mm = true →
  parseMinutes (hh ++ ":" ++ mm ++ ":" ++ rest)
  = Some (digitsValue hh * 60 + digitsValue mm)
  ∧ parseMinutes (hh ++ ":" ++ mm)
    = Some (digitsValue hh * 60 + digitsValue mm).
Proof.
  intros Hh Hm. unfold parseMinutes. split.
  - change (hh ++ ":" ++ mm ++ ":" ++ rest)
      with (hh ++ String ":" (mm ++ String ":" rest)).
    rewrite (split_digits hh _ Hh), (split_digits mm _ Hm).
    by rewrite (toNumber_digits hh Hh), (toNumber_digits mm Hm).
  - change (hh ++ ":" ++ mm) with (hh ++ String ":" mm).
    rewrite (split_digits hh _ Hh), (split_digits_end mm Hm).
    by rewrite (toNumber_digits hh Hh), (toNumber_digits mm Hm).
Qed.

Lemma parseMinutes_fields_witness :
  parseMinutes ("25" ++ ":" ++ "30" ++ ":" ++ "59") = Some (25 * 60 + 30)
  ∧ parseMinutes ("5" ++ ":" ++ "07") = Some (5 * 60 + 7).
Proof.
  split.
  - apply (proj1 (parseMinutes_fields "25" "30" "59" eq_refl eq_refl)).
  - apply (proj2 (parseMinutes_fields "5" "07" "" eq_refl eq_refl)).
Defined.

Lemma twoDigits_value k :
  0 ≤ k < 100 →
  allDecimalDigits (twoDigits k) = true ∧ digitsValue (twoDigits k) = k.
Proof.
  intros Hk.
  assert (Hall : Forall (λ k, allDecimalDigits (twoDigits k) = true
                              ∧ digitsValue (twoDigits k) = k) (seqZ 0 100)).
  { refine (proj1 (bool_decide_eq_true _) _). vm_compute. reflexivity. }
  rewrite Forall_forall in Hall. apply Hall, elem_of_seqZ. lia.
Qed.

(** X10. A feed time [HH:MM:SS] written with two digits per field, the
    hour up to 99, is stored as [HH * 60 + MM], and that minute is
    displayed as the hour [HH mod 24] on the 12-hour clock with the same
    two minute digits. *)
Theorem feed_time_displayed hh mm ss :
  0 ≤ hh < 100 → 0 ≤ mm < 60 →
  parseMinutes (twoDigits hh ++ ":" ++ twoDigits mm ++ ":" ++ ss)
  = Some (hh * 60 + mm)
  ∧ formatTime (hh * 60 + mm)
    = numberToString (hour12 (hh mod 24)) ++ ":" ++ twoDigits mm
        ++ ampm (hh mod 24).
Proof.
  intros Hh Hm. split.
  - destruct (twoDigits_value hh Hh) as [Hdh Hvh].
    destruct (twoDigits_value mm ltac:(lia)) as [Hdm Hvm].
    rewrite (proj1 (parseMinutes_fields _ _ ss Hdh Hdm)).
    by rewrite Hvh, Hvm.
  - apply formatTime_hour_minute; lia.
Qed.

Lemma feed_time_displayed_witness :
  parseMinutes "24:14:00" = Some 1454 ∧ formatTime 1454 = "12:14am".
Proof.
  assert (H24 : 0 ≤ 24 < 100) by lia. assert (H14 : 0 ≤ 14 < 60) by lia.
  split.
  - exact (proj1 (feed_time_displayed 24 14 "00" H24 H14)).
  - exact (proj2 (feed_time_displayed 24 14 "00" H24 H14)).
Defined.

End TimeParsing.

Section StopTables.

Local Open Scope list_scope.

Lemma stopToStation_snoc stops s :
  stopToStation (stops ++ [s])
  = if decide (s_parent_station s ≠ "")
    then <[s_stop_id s := s_parent_station s]> (stopToStation stops)
    else stopToStation stops.
Proof. unfold stopToStation. by rewrite foldl_snoc. Qed.



End StopTables.

(** On the feeds with clock times both scripts are in the embedding. *)

Section ClockTimes.

Local Open Scope list_scope.

Implicit Types (schedule : gmap string (Buckets Entry)) (st : StopTime).

Lemma clockTime_parseMinutes time :
  clockTime time → is_Some (parseMinutes time).
Proof.
  unfold clockTime, parseMinutes.
  destruct (split ":" time) as [|hh [|mm rest]]; try done.
  intros (Hh & Hm & _). unfold toNumber. rewrite Hh, Hm. simpl. eauto.
Qed.

Lemma processStopTimeWith_defined f feed schedule st :
  (resolves feed st → clockTime (st_departure_time st)) →
  is_Some (processStopTimeWith f feed schedule st).
Proof.
  intros Hclock. unfold processStopTimeWith.
  destruct (tripInfo (trips feed) !! st_trip_id st) as [trip|] eqn:Htrip;
    [|eauto].
  destruct (stopToStation (stops feed) !! st_stop_id st) as [sid|] eqn:Hstop;
    [|eauto].
  case_decide; [eauto|].
  destruct (clockTime_parseMinutes (st_departure_time st)) as [m ->].
  { apply Hclock. unfold resolves. rewrite Htrip, Hstop. eauto. }
  simpl. eauto.
Qed.

Lemma forEachStopTimeWith_defined f feed sts schedule :
  Forall (λ st, resolves feed st → clockTime (st_departure_time st)) sts →
  is_Some (forEachStopTimeWith f feed sts schedule).
Proof.
  intros Hall. revert schedule.
  induction Hall as [|st sts Hst Hall IH]; intros schedule; [simpl; eauto|].
  simpl.
  destruct (processStopTimeWith_defined f feed schedule st Hst) as [s1 ->].
  simpl. apply IH.
Qed.

Lemma forEachStopTimeWith_classify feed sts schedule :
  forEachStopTimeWith classify feed sts schedule
  = forEachStopTime feed sts schedule.
Proof.
  revert schedule. induction sts as [|st sts IH]; intros schedule; [done|].
  simpl. change (processStopTimeWith classify feed schedule st)
    with (processStopTime feed schedule st).
  destruct (processStopTime feed schedule st); simpl; [apply IH|done].
Qed.

Lemma compact_defined feed : clockTimes feed → is_Some (compact feed).
Proof.
  intros Hclock. unfold compact.
  destruct (forEachStopTimeWith_defined classify feed (stopTimes feed) ∅ Hclock)
    as [schedule Hrun].
  rewrite forEachStopTimeWith_classify in Hrun. rewrite Hrun. simpl. eauto.
Qed.

Lemma compact3_defined feed : clockTimes feed → is_Some (compact3 feed).
Proof.
  intros Hclock. unfold compact3.
  destruct (forEachStopTimeWith_defined classify3 feed (stopTimes feed) ∅ Hclock)
    as [schedule ->].
  simpl. eauto.
Qed.

End ClockTimes.

Section ScheduleBuilding.

Local Open Scope list_scope.

Implicit Types (schedule : gmap string (Buckets Entry)) (st : StopTime).

Lemma processStopTime_skip feed schedule st :
  ¬ resolves feed st → processStopTime feed schedule st = Some schedule.
Proof.
  unfold resolves, processStopTime. intros Hno.
  destruct (tripInfo (trips feed) !! st_trip_id st); [|done].
  destruct (stopToStation (stops feed) !! st_stop_id st); [|done].
  exfalso. apply Hno. eauto.
Qed.

Lemma forEachStopTime_filter feed sts schedule :
  forEachStopTime feed (filter (resolves feed) sts) schedule
  = forEachStopTime feed sts schedule.
Proof.
  revert schedule. induction sts as [|st sts IH]; intros schedule; [done|].
  rewrite filter_cons. case_decide as Hres; simpl.
  - destruct (processStopTime feed schedule st); simpl; [apply IH|done].
  - rewrite (processStopTime_skip _ _ _ Hres). simpl. apply IH.
Qed.

Lemma forEachStopTime_withStopTimes feed sts' sts schedule :
  forEachStopTime (withStopTimes feed sts') sts schedule
  = forEachStopTime feed sts schedule.
Proof.
  revert schedule. induction sts as [|st sts IH]; intros schedule; [done|].
  simpl.
  change (processStopTime (withStopTimes feed sts') schedule st)
    with (processStopTime feed schedule st).
  destruct (processStopTime feed schedule st); simpl; [apply IH|done].
Qed.

(** X12. For a feed whose identifiers are plain keys and whose records
    that are not skipped carry a clock time, the script emits a document,
    and it is the document of the feed without the stop-time records
    whose trip identifier no trip row carries or whose stop has no parent
    station in the stop table: such records leave no trace. *)
Theorem dangling_records_skipped feed :
  plainIds feed → clockTimes feed →
  ∃ snap,
    compact feed = Some snap
    ∧ compact (withStopTimes feed (filter (resolves feed) (stopTimes feed)))
      = Some snap.
Proof.
  intros _ Hclock. destruct (compact_defined feed Hclock) as [snap Hc].
  exists snap. split; [done|]. rewrite <- Hc.
  unfold compact. simpl.
  by rewrite forEachStopTime_withStopTimes, forEachStopTime_filter.
Qed.

Lemma dangling_records_skipped_witness :
  ∃ snap,
    compact feedDangling = Some snap
    ∧ compact (withStopTimes feedDangling
                 [mkStopTime "T1" "70011" "25:30:00";
                  mkStopTime "T2" "70011" "06:15"])
      = Some snap.
Proof.
  apply (dangling_records_skipped feedDangling);
    apply (bool_decide_unpack _); vm_compute; exact I.
Defined.

Lemma stopToStation_nonempty stops k p :
  stopToStation stops !! k = Some p → p ≠ "".
Proof.
  induction stops as [|s stops IH] using rev_ind; intros Hp.
  { unfold stopToStation in Hp. simpl in Hp. by rewrite lookup_empty in Hp. }
  rewrite stopToStation_snoc in Hp. case_decide as Hpar; [|by apply IH].
  destruct (decide (s_stop_id s = k)) as [Hk|Hk].
  - rewrite Hk, lookup_insert_eq in Hp. by injection Hp as <-.
  - rewrite lookup_insert_ne in Hp by done. by apply IH.
Qed.

Lemma stopToStation_lookup_origin stops k p :
  stopToStation stops !! k = Some p →
  ∃ stop, stop ∈ stops ∧ s_stop_id stop = k ∧ s_parent_station stop = p.
Proof.
  induction stops as [|s stops IH] using rev_ind; intros Hp.
  { unfold stopToStation in Hp. simpl in Hp. by rewrite lookup_empty in Hp. }
  rewrite stopToStation_snoc in Hp.
  assert (Hold : stopToStation stops !! k = Some p →
                 ∃ stop, stop ∈ stops ++ [s] ∧ s_stop_id stop = k
                         ∧ s_parent_station stop = p).
  { intros Hp'. destruct (IH Hp') as (stop & Hin & Hid & Hpar).
    exists stop. rewrite elem_of_app. auto. }
  case_decide as Hpar; [|by apply Hold].
  destruct (decide (s_stop_id s = k)) as [Hk|Hk].
  - rewrite Hk, lookup_insert_eq in Hp. injection Hp as <-.
    exists s. rewrite elem_of_app, list_elem_of_singleton. auto.
  - rewrite lookup_insert_ne in Hp by done. by apply Hold.
Qed.

Lemma elem_of_bucket_push_l {A} (dir dir0 : Direction) (e e0 : A) (b : Buckets A) :
  e ∈ bucket dir b → e ∈ bucket dir (push dir0 e0 b).
Proof.
  destruct dir, dir0; simpl; rewrite ?elem_of_app; auto.
Qed.

Lemma elem_of_bucket_push_new {A} (dir : Direction) (e : A) (b : Buckets A) :
  e ∈ bucket dir (push dir e b).
Proof.
  destruct dir; simpl; rewrite elem_of_app, list_elem_of_singleton; auto.
Qed.

Lemma processStopTime_keeps feed schedule st schedule' sid b dir e :
  processStopTime feed schedule st = Some schedule' →
  schedule !! sid = Some b → e ∈ bucket dir b →
  ∃ b', schedule' !! sid = Some b' ∧ e ∈ bucket dir b'.
Proof.
  unfold processStopTime. intros Hstep Hb He.
  destruct (tripInfo (trips feed) !! st_trip_id st) as [trip|];
    [|injection Hstep as <-; eauto].
  destruct (stopToStation (stops feed) !! st_stop_id st) as [sid0|];
    [|injection Hstep as <-; eauto].
  case_decide; [injection Hstep as <-; eauto|].
  destruct (parseMinutes (st_departure_time st)) as [minutes|]; [|discriminate].
  simpl in Hstep. injection Hstep as <-.
  destruct (decide (sid0 = sid)) as [->|Hne].
  - rewrite lookup_insert_eq, Hb. simpl. eexists. split; [done|].
    by apply elem_of_bucket_push_l.
  - rewrite lookup_insert_ne by done. eauto.
Qed.

Lemma forEachStopTime_keeps feed sts schedule schedule' sid b dir e :
  forEachStopTime feed sts schedule = Some schedule' →
  schedule !! sid = Some b → e ∈ bucket dir b →
  ∃ b', schedule' !! sid = Some b' ∧ e ∈ bucket dir b'.
Proof.
  revert schedule b. induction sts as [|st sts IH]; intros schedule b Hrun Hb He.
  - injection Hrun as <-. eauto.
  - simpl in Hrun.
    destruct (processStopTime feed schedule st) as [schedule1|] eqn:Hstep;
      [|discriminate].
    simpl in Hrun.
    destruct (processStopTime_keeps _ _ _ _ _ _ _ _ Hstep Hb He) as (b1 & Hb1 & He1).
    eauto.
Qed.

Lemma processStopTime_adds feed schedule st schedule' trip sid m :
  tripInfo (trips feed) !! st_trip_id st = Some trip →
  stopToStation (stops feed) !! st_stop_id st = Some sid →
  parseMinutes (st_departure_time st) = Some m →
  processStopTime feed schedule st = Some schedule' →
  ∃ b' e, schedule' !! sid = Some b'
          ∧ e ∈ bucket (if decide (direction trip = Some 0)
                        then northbound else southbound) b'
          ∧ t e = m ∧ n e = trainNum trip.
Proof.
  intros Htrip Hstop Hm. unfold processStopTime. rewrite Htrip, Hstop, Hm.
  rewrite decide_False by (by eapply stopToStation_nonempty).
  simpl. intros [= <-]. rewrite lookup_insert_eq.
  eexists _, _. split; [done|]. split; [apply elem_of_bucket_push_new|done].
Qed.

Lemma forEachStopTime_adds feed sts schedule schedule' st trip sid m :
  st ∈ sts →
  tripInfo (trips feed) !! st_trip_id st = Some trip →
  stopToStation (stops feed) !! st_stop_id st = Some sid →
  parseMinutes (st_departure_time st) = Some m →
  forEachStopTime feed sts schedule = Some schedule' →
  ∃ b' e, schedule' !! sid = Some b'
          ∧ e ∈ bucket (if decide (direction trip = Some 0)
                        then northbound else southbound) b'
          ∧ t e = m ∧ n e = trainNum trip.
Proof.
  intros Hst Htrip Hstop Hm. revert schedule.
  induction sts as [|st0 sts IH]; intros schedule Hrun;
    [by apply elem_of_nil in Hst|].
  simpl in Hrun.
  destruct (processStopTime feed schedule st0) as [schedule1|] eqn:Hstep;
    [|discriminate].
  simpl in Hrun. apply elem_of_cons in Hst as [<-|Hst].
  - destruct (processStopTime_adds _ _ _ _ _ _ _ Htrip Hstop Hm Hstep)
      as (b1 & e & Hb1 & He & Ht & Hn).
    destruct (forEachStopTime_keeps _ _ _ _ _ _ _ _ Hrun Hb1 He) as (b' & Hb' & He').
    eauto 10.
  - by eapply IH.
Qed.

Lemma dedupeFrom_keeps_key prev arr e :
  e ∈ arr →
  (∃ e', e' ∈ dedupeFrom prev arr ∧ t e' = t e ∧ n e' = n e)
  ∨ (∃ p, prev = Some p ∧ t e = t p ∧ n e = n p).
Proof.
  revert prev. induction arr as [|item rest IH]; intros prev He;
    [by apply elem_of_nil in He|].
  simpl. apply elem_of_cons in He as [->|He].
  - destruct prev as [p|]; [|left; exists item; split; [left|done]].
    case_bool_decide as Hk; [left; exists item; split; [left|done]|].
    right. exists p. split; [done|].
    destruct (decide (t item = t p)), (decide (n item = n p)); tauto.
  - destruct (IH (Some item) He) as [(e' & He' & Hk)|(p & [= <-] & Ht & Hn)].
    + left. exists e'. split; [|done]. rewrite elem_of_app. auto.
    + destruct prev as [p|].
      * case_bool_decide as Hk.
        -- left. exists item. split; [left|done].
        -- right. exists p. split; [done|].
           destruct (decide (t item = t p)), (decide (n item = n p));
             split; first [congruence|tauto].
      * left. exists item. split; [left|done].
Qed.

Lemma dedupe_keeps_key arr e :
  e ∈ arr → ∃ e', e' ∈ dedupe arr ∧ t e' = t e ∧ n e' = n e.
Proof.
  intros He. rewrite dedupe_dedupeFrom.
  destruct (dedupeFrom_keeps_key None arr e He) as [?|(p & ? & _)]; done.
Qed.

(** X13. For a feed whose identifiers are plain keys and whose records
    that are not skipped carry a clock time, every stop-time record whose
    trip and stop resolve leaves its minute and its train number in the
    document: the emitted bucket of its station and direction holds a
    tuple with that minute and that train number. Nothing is said of the
    route type and the service type of that tuple: the filter compares
    the minute and the train number only. *)
Theorem resolved_records_emitted feed st trip sid :
  plainIds feed → clockTimes feed →
  st ∈ stopTimes feed →
  tripInfo (trips feed) !! st_trip_id st = Some trip →
  stopToStation (stops feed) !! st_stop_id st = Some sid →
  ∃ snap m d,
    compact feed = Some snap
    ∧ parseMinutes (st_departure_time st) = Some m
    ∧ d ∈ snapshotBucket snap sid
            (if decide (direction trip = Some 0)
             then northbound else southbound)
    ∧ minute d = m ∧ trainNumber d = trainNum trip.
Proof.
  intros _ Hclock Hst Htrip Hstop.
  destruct (compact_defined feed Hclock) as [snap Hc].
  destruct (clockTime_parseMinutes (st_departure_time st)) as [m Hm].
  { unfold clockTimes in Hclock. rewrite Forall_forall in Hclock.
    apply Hclock; [done|]. unfold resolves. rewrite Htrip, Hstop. eauto. }
  exists snap, m.
  set (dir := if decide (direction trip = Some 0) then northbound else southbound).
  destruct (snapshotBucket_unfold feed snap sid dir Hc) as (schedule & Hrun & ->).
  destruct (forEachStopTime_adds _ _ _ _ _ _ _ _ Hst Htrip Hstop Hm Hrun)
    as (b' & e & Hb' & He & Ht & Hn).
  rewrite Hb'. fold dir in He.
  assert (He' : e ∈ sortByTime (bucket dir b'))
    by (by rewrite sortByTime_Permutation).
  destruct (dedupe_keeps_key _ _ He') as (e' & Hin & Ht' & Hn').
  exists (compactEntry e'). do 2 (split; [done|]).
  split; [by apply list_elem_of_fmap_2|].
  simpl. split; congruence.
Qed.

Lemma resolved_records_emitted_witness :
  ∃ snap m d, compact feedDangling = Some snap
              ∧ parseMinutes "25:30:00" = Some m
              ∧ d ∈ snapshotBucket snap "sf" northbound
              ∧ minute d = m ∧ trainNumber d = "101".
Proof.
  apply (resolved_records_emitted feedDangling
           (mkStopTime "T1" "70011" "25:30:00")
           (mkTripInfo "WD" (Some 0) "SF" "L1" "101") "sf").
  - apply (bool_decide_unpack _). vm_compute. exact I.
  - apply (bool_decide_unpack _). vm_compute. exact I.
  - left.
  - vm_compute. reflexivity.
  - vm_compute. reflexivity.
Defined.

End ScheduleBuilding.

Section SortAndFilter.

Local Open Scope list_scope.

Implicit Types (e x y : Entry) (l arr : list Entry).

Lemma sortByTime_sorted_id l :
  StronglySorted time_le l → sortByTime l = l.
Proof.
  induction 1 as [|x l Hl IH Hx]; [done|].
  unfold sortByTime in *. simpl. rewrite IH.
  destruct l as [|y l']; [done|]. simpl.
  apply Forall_cons in Hx as [Hxy _]. by rewrite decide_True.
Qed.

Lemma dedupeFrom_distinct_id prev l :
  Sorted distinctKey l →
  match prev with Some p => HdRel distinctKey p l | None => True end →
  dedupeFrom prev l = l.
Proof.
  intros Hs. revert prev. induction Hs as [|x l Hl IH Hx]; intros prev Hp; [done|].
  simpl. rewrite (IH (Some x) Hx).
  destruct prev as [p|]; [|done].
  inversion_clear Hp as [|? ? Hpx]. unfold distinctKey in Hpx.
  rewrite bool_decide_eq_true_2; [done|].
  destruct (decide (t x = t p)), (decide (n x = n p)); tauto.
Qed.

Lemma sortDedupe_idempotent l :
  dedupe (sortByTime (dedupe (sortByTime l))) = dedupe (sortByTime l).
Proof.
  rewrite (sortByTime_sorted_id (dedupe (sortByTime l)))
    by apply dedupe_sort_sorted.
  rewrite (dedupe_dedupeFrom (dedupe (sortByTime l))).
  apply dedupeFrom_distinct_id; [apply dedupe_neighbours|done].
Qed.

(** X15. Sorting and filtering the buckets a second time changes
    nothing. *)
Theorem sortAndDedupe_idempotent (schedule : gmap string (Buckets Entry)) :
  sortAndDedupe (sortAndDedupe schedule) = sortAndDedupe schedule.
Proof.
  unfold sortAndDedupe. rewrite <- map_fmap_compose.
  apply map_fmap_ext. intros sid b _. unfold mapBuckets. simpl.
  by rewrite !sortDedupe_idempotent.
Qed.

Lemma snapshotBucket_neighbours feed snap sid dir :
  compact feed = Some snap →
  Sorted distinctTuple (snapshotBucket snap sid dir).
Proof.
  intros Hc.
  destruct (snapshotBucket_unfold feed snap sid dir Hc) as (sch & _ & ->).
  apply (Sorted_fmap compactEntry distinctKey); [done|].
  apply dedupe_neighbours.
Qed.




End SortAndFilter.

Section EmittedSchedule.

Local Open Scope list_scope.

Lemma processStopTime_nonempty feed schedule st schedule' :
  (∀ sid b, schedule !! sid = Some b → north b ≠ [] ∨ south b ≠ []) →
  processStopTime feed schedule st = Some schedule' →
  ∀ sid b, schedule' !! sid = Some b → north b ≠ [] ∨ south b ≠ [].
Proof.
  intros Hinv. unfold processStopTime.
  destruct (tripInfo (trips feed) !! st_trip_id st) as [trip|];
    [|by intros [= <-]].
  destruct (stopToStation (stops feed) !! st_stop_id st) as [sid0|];
    [|by intros [= <-]].
  case_decide; [by intros [= <-]|].
  destruct (parseMinutes (st_departure_time st)) as [minutes|]; [|discriminate].
  simpl. intros [= <-] sid b Hb.
  destruct (decide (sid0 = sid)) as [->|Hne].
  - rewrite lookup_insert_eq in Hb. injection Hb as <-.
    destruct (decide (direction trip = Some 0)); simpl; [left|right];
      intros [_ ?]%app_eq_nil; discriminate.
  - rewrite lookup_insert_ne in Hb by done. by eapply Hinv.
Qed.

Lemma forEachStopTime_nonempty feed sts schedule schedule' :
  (∀ sid b, schedule !! sid = Some b → north b ≠ [] ∨ south b ≠ []) →
  forEachStopTime feed sts schedule = Some schedule' →
  ∀ sid b, schedule' !! sid = Some b → north b ≠ [] ∨ south b ≠ [].
Proof.
  revert schedule. induction sts as [|st sts IH]; intros schedule Hinv.
  - by intros [= <-].
  - simpl.
    destruct (processStopTime feed schedule st) as [schedule1|] eqn:Hstep;
      [|discriminate].
    simpl. apply IH. by eapply processStopTime_nonempty.
Qed.

Lemma dedupe_sort_nonempty (l : list Entry) :
  l ≠ [] → dedupe (sortByTime l) ≠ [].
Proof.
  destruct l as [|x l]; [done|]. intros _ Hnil.
  destruct (dedupe_keeps_key (sortByTime (x :: l)) x) as (e' & He' & _).
  - rewrite sortByTime_Permutation. left.
  - rewrite Hnil in He'. by apply elem_of_nil in He'.
Qed.

(** X17. For a feed whose identifiers are plain keys, every station that
    is a key of the emitted schedule has at least one departure,
    northbound or southbound; its identifier is not empty and is the
    parent station of a row of the stop table. *)
Theorem station_keys_have_departures feed snap sid b :
  plainIds feed →
  compact feed = Some snap →
  snap_schedule snap !! sid = Some b →
  (north b ≠ [] ∨ south b ≠ [])
  ∧ sid ≠ ""
  ∧ ∃ stop, stop ∈ stops feed ∧ s_parent_station stop = sid.
Proof.
  unfold compact. intros _ Hc Hb.
  destruct (forEachStopTime feed (stopTimes feed) ∅) as [schedule|] eqn:Hrun;
    [|discriminate].
  simpl in Hc. injection Hc as <-. simpl in Hb.
  unfold compactSchedule, sortAndDedupe in Hb. rewrite !lookup_fmap in Hb.
  destruct (schedule !! sid) as [b0|] eqn:Hb0; [|discriminate].
  simpl in Hb. injection Hb as <-.
  assert (Hne : north b0 ≠ [] ∨ south b0 ≠ []).
  { eapply forEachStopTime_nonempty; [|exact Hrun|exact Hb0].
    intros sid' b'. by rewrite lookup_empty. }
  assert (Hfrom : filledFrom feed (stopTimes feed) schedule).
  { eapply forEachStopTime_filledFrom; [| |exact Hrun]; [done|].
    intros sid' b' dir' e'. by rewrite lookup_empty. }
  assert (Hentry : ∃ dir e, e ∈ bucket dir b0).
  { destruct Hne as [Hne|Hne].
    - exists northbound. destruct (north b0) as [|e l] eqn:Hn; [done|].
      exists e. simpl. rewrite Hn. left.
    - exists southbound. destruct (south b0) as [|e l] eqn:Hs; [done|].
      exists e. simpl. rewrite Hs. left. }
  destruct Hentry as (dir & e & He).
  destruct (Hfrom _ _ _ _ Hb0 He) as (st & _ & trip & _ & Hstop & _).
  split; [|split].
  - simpl. destruct Hne as [Hne|Hne]; [left|right];
      intros Hnil; apply fmap_nil_inv in Hnil;
      by apply dedupe_sort_nonempty in Hnil.
  - by eapply stopToStation_nonempty.
  - destruct (stopToStation_lookup_origin _ _ _ Hstop)
      as (stop & Hin & _ & Hpar). eauto.
Qed.

Lemma station_keys_have_departures_witness :
  ∃ snap b, compact feedDangling = Some snap
            ∧ snap_schedule snap !! "sf" = Some b
            ∧ (north b ≠ [] ∨ south b ≠ []).
Proof.
  assert (Hkey : (λ snap, bool_decide (is_Some (snap_schedule snap !! "sf")))
                   <$> compact feedDangling = Some true)
    by (vm_compute; reflexivity).
  destruct (compact feedDangling) as [snap|] eqn:Hc; [|discriminate Hkey].
  simpl in Hkey. injection Hkey as Hkey.
  apply bool_decide_eq_true in Hkey as [b Hb].
  exists snap, b. split; [reflexivity|]. split; [exact Hb|].
  assert (Hplain : plainIds feedDangling)
    by (apply (bool_decide_unpack _); vm_compute; exact I).
  exact (proj1 (station_keys_have_departures feedDangling snap "sf" b
                  Hplain Hc Hb)).
Defined.

Lemma routeTypeMap_range k v : routeTypeMap !! k = Some v → 0 ≤ v ≤ 3.
Proof.
  unfold routeTypeMap. rewrite !lookup_insert, lookup_empty.
  repeat case_decide; intros [= <-]; lia.
Qed.

Lemma foldl_insert_origin {A B} (key : A → string) (val : A → B)
    (l : list A) (m : gmap string B) k v :
  foldl (λ m a, <[key a := val a]> m) m l !! k = Some v →
  m !! k = Some v ∨ ∃ a, a ∈ l ∧ key a = k ∧ val a = v.
Proof.
  revert m. induction l as [|a l IH]; intros m Hk; [by left|].
  simpl in Hk. apply IH in Hk as [Hk|(b & Hb & Hkb & Hvb)].
  - destruct (decide (key a = k)) as [Heq|Hne].
    + rewrite Heq, lookup_insert_eq in Hk. right. exists a.
      split; [left|]. split; congruence.
    + rewrite lookup_insert_ne in Hk by done. by left.
  - right. exists b. split; [by right|done].
Qed.

Lemma tripInfo_origin trips k info :
  tripInfo trips !! k = Some info →
  ∃ row, row ∈ trips ∧ t_trip_id row = k
         ∧ direction info = parseInt (t_direction_id row)
         ∧ trainNum info = t_trip_short_name row
         ∧ serviceId info = t_service_id row.
Proof.
  intros Hk. unfold tripInfo in Hk.
  apply (foldl_insert_origin t_trip_id
           (λ t, {| serviceId := t_service_id t;
                    direction := parseInt (t_direction_id t);
                    headsign := t_trip_headsign t;
                    routeId := t_route_id t;
                    trainNum := t_trip_short_name t |})) in Hk
    as [Hk|(row & Hin & Hid & <-)].
  - by rewrite lookup_empty in Hk.
  - exists row. auto.
Qed.

(** X18. For a feed whose identifiers and route names are plain keys,
    every emitted tuple carries a route type from 0 to 3, and it lies in
    the northbound bucket exactly when the [direction_id] of its trip
    reads as the integer 0: a trip with any other [direction_id], missing
    or not a number included, is southbound. *)
Theorem routing_of_tuples feed snap sid dir d :
  plainIds feed →
  compact feed = Some snap →
  d ∈ snapshotBucket snap sid dir →
  0 ≤ routeType d ≤ 3
  ∧ ∃ st row,
      st ∈ stopTimes feed ∧ row ∈ trips feed
      ∧ t_trip_id row = st_trip_id st
      ∧ trainNumber d = t_trip_short_name row
      ∧ (dir = northbound ↔ parseInt (t_direction_id row) = Some 0).
Proof.
  intros _ Hc Hd.
  destruct (snapshotBucket_origin _ _ _ _ _ Hc Hd)
    as (st & e & Hst & (trip & Htrip & _ & Hdir & _ & Hn & _) & ->).
  split.
  - simpl. destruct (routeTypeMap !! r e) as [v|] eqn:Hv; simpl; [|lia].
    by eapply routeTypeMap_range.
  - destruct (tripInfo_origin _ _ _ Htrip) as (row & Hrow & Hid & Hd0 & Ht & _).
    exists st, row. repeat split; try done.
    + simpl. congruence.
    + intros ->. rewrite <- Hd0. by case_decide.
    + intros Hzero. rewrite Hdir, Hd0, decide_True; done.
Qed.

Lemma routing_of_tuples_witness :
  ∃ snap, compact feedDangling = Some snap
          ∧ 0 ≤ routeType (mkDeparture 375 "222" 0 1) ≤ 3.
Proof.
  assert (Hrun : (λ snap, snapshotBucket snap "sf" southbound)
                   <$> compact feedDangling
                 = Some [mkDeparture 375 "222" 0 1])
    by (vm_compute; reflexivity).
  destruct (compact feedDangling) as [snap|] eqn:Hc; [|discriminate Hrun].
  simpl in Hrun. injection Hrun as Hrun.
  assert (Hd : mkDeparture 375 "222" 0 1 ∈ snapshotBucket snap "sf" southbound)
    by (rewrite Hrun; left).
  exists snap. split; [reflexivity|].
  assert (Hplain : plainIds feedDangling)
    by (apply (bool_decide_unpack _); vm_compute; exact I).
  exact (proj1 (routing_of_tuples feedDangling snap "sf" southbound
                  (mkDeparture 375 "222" 0 1) Hplain Hc Hd)).
Defined.

End EmittedSchedule.

(** * Properties of the script with the three-way service type *)

Section ThreeWayFacts.

Local Open Scope list_scope.

Implicit Types (schedule : gmap string (Buckets Entry)) (st : StopTime).

Lemma processStopTimeWith_classify feed schedule st :
  processStopTimeWith classify feed schedule st
  = processStopTime feed schedule st.
Proof. reflexivity. Qed.

Lemma processStopTimeWith_filledFrom f feed all schedule st schedule' :
  st ∈ all → filledFromWith f feed all schedule →
  processStopTimeWith f feed schedule st = Some schedule' →
  filledFromWith f feed all schedule'.
Proof.
  intros Hst Hinv. unfold processStopTimeWith.
  destruct (tripInfo (trips feed) !! st_trip_id st) as [trip|] eqn:Htrip;
    [|by intros [= <-]].
  destruct (stopToStation (stops feed) !! st_stop_id st) as [sid0|] eqn:Hstop;
    [|by intros [= <-]].
  case_decide as Hempty; [by intros [= <-]|].
  destruct (parseMinutes (st_departure_time st)) as [minutes|] eqn:Hmin;
    [|discriminate].
  simpl. intros [= <-]. intros sid b dir e Hb He.
  destruct (decide (sid0 = sid)) as [->|Hne].
  - rewrite lookup_insert_eq in Hb. injection Hb as <-.
    apply elem_of_bucket_push in He as [He|[-> ->]].
    + destruct (schedule !! sid) as [b0|] eqn:Hb0; simpl in He.
      * by eapply Hinv.
      * destruct dir; by apply elem_of_nil in He.
    + exists st. split; [done|]. exists trip. by repeat split.
  - rewrite lookup_insert_ne in Hb by done. by eapply Hinv.
Qed.

Lemma forEachStopTimeWith_filledFrom f feed all sts schedule schedule' :
  (∀ st, st ∈ sts → st ∈ all) → filledFromWith f feed all schedule →
  forEachStopTimeWith f feed sts schedule = Some schedule' →
  filledFromWith f feed all schedule'.
Proof.
  revert schedule. induction sts as [|st sts IH]; intros schedule Hsub Hinv.
  - by intros [= <-].
  - simpl.
    destruct (processStopTimeWith f feed schedule st) as [schedule1|] eqn:Hstep;
      [|discriminate].
    simpl. apply IH.
    + intros st' Hst'. apply Hsub. by right.
    + eapply processStopTimeWith_filledFrom; [|done..]. apply Hsub. by left.
Qed.

Lemma snapshotBucket3_origin feed snap stationId dir d :
  compact3 feed = Some snap → d ∈ snapshotBucket snap stationId dir →
  ∃ st e, st ∈ stopTimes feed ∧ pushedByWith classify3 feed st stationId dir e
          ∧ d = compactEntry3 e.
Proof.
  unfold compact3. intros Hc Hd.
  destruct (forEachStopTimeWith classify3 feed (stopTimes feed) ∅)
    as [schedule|] eqn:Hrun; [|discriminate].
  simpl in Hc. injection Hc as <-.
  unfold snapshotBucket, compactSchedule3, sortAndDedupe in Hd. simpl in Hd.
  rewrite !lookup_fmap in Hd.
  destruct (schedule !! stationId) as [b|] eqn:Hb;
    [|by apply elem_of_nil in Hd].
  simpl in Hd.
  assert (He : ∃ e, d = compactEntry3 e ∧ e ∈ bucket dir b).
  { destruct dir; simpl in Hd; apply list_elem_of_fmap in Hd as (e & -> & He);
      apply dedupe_sort_elem_of in He; eauto. }
  destruct He as (e & -> & He).
  assert (Hinv : filledFromWith classify3 feed (stopTimes feed) schedule).
  { eapply forEachStopTimeWith_filledFrom; [| |exact Hrun]; [done|].
    intros sid b' dir' e'. by rewrite lookup_empty. }
  destruct (Hinv _ _ _ _ Hb He) as (st & Hst & Hpush). eauto.
Qed.

Lemma serviceCode3 (service : option Service) :
  default 0 (serviceTypeMap !! classify3 service)
  = match service with
    | None => 2
    | Some svc => if weekday svc then 0 else 1
    end.
Proof.
  destruct service as [svc|]; simpl; [destruct (weekday svc)|];
    vm_compute; reflexivity.
Qed.

(** C2. In the document of the compactor with the three-way service
    type, the script of [generate-icons.js] that the specification
    follows, for a feed whose identifiers are plain keys: every departure
    tuple comes from a stop-time record of the feed whose trip and station
    resolve, and its service type is a value of the enumeration
    Weekday = 0, Weekend = 1, Modified = 2; it is 0 or 1 exactly when the
    trip's service identifier is in the calendar map, and 2 exactly when
    it is not, the service being exception-only. *)
Theorem serviceType_encoding feed snap stationId dir d :
  plainIds feed →
  compact3 feed = Some snap →
  d ∈ snapshotBucket snap stationId dir →
  (serviceType d = 0 ∨ serviceType d = 1 ∨ serviceType d = 2)
  ∧ ∃ st trip,
      st ∈ stopTimes feed
      ∧ tripInfo (trips feed) !! st_trip_id st = Some trip
      ∧ stopToStation (stops feed) !! st_stop_id st = Some stationId
      ∧ trainNumber d = trainNum trip
      ∧ parseMinutes (st_departure_time st) = Some (minute d)
      ∧ (is_Some (services (calendar feed) !! serviceId trip)
         ↔ serviceType d = 0 ∨ serviceType d = 1)
      ∧ (services (calendar feed) !! serviceId trip = None
         ↔ serviceType d = 2).
Proof.
  intros _ Hc Hd.
  destruct (snapshotBucket3_origin _ _ _ _ _ Hc Hd)
    as (st & e & Hst & (trip & Htrip & Hstop & _ & Hmin & Hn & _ & Hs) & ->).
  assert (Hcode : serviceType (compactEntry3 e)
                  = match services (calendar feed) !! serviceId trip with
                    | None => 2
                    | Some svc => if weekday svc then 0 else 1
                    end).
  { simpl. rewrite Hs. apply serviceCode3. }
  split.
  { rewrite Hcode.
    destruct (services (calendar feed) !! serviceId trip) as [svc|];
      [destruct (weekday svc)|]; auto. }
  exists st, trip. do 5 (split; [done|]).
  rewrite Hcode.
  destruct (services (calendar feed) !! serviceId trip) as [svc|];
    [destruct (weekday svc)|].
  - split; [split; [auto|eauto]|]. split; [discriminate|lia].
  - split; [split; [auto|eauto]|]. split; [discriminate|lia].
  - split; [|done]. split; [by intros [? ?]|lia].
Qed.

Lemma serviceType_encoding_witness :
  ∃ snap, compact3 feedHolidayOnly = Some snap
          ∧ mkDeparture 500 "M101" 0 2 ∈ snapshotBucket snap "sf" northbound
          ∧ serviceTypeEncoding_spec (compact3 feedHolidayOnly) feedHolidayOnly.
Proof.
  assert (Hrun : (λ snap, snapshotBucket snap "sf" northbound)
                   <$> compact3 feedHolidayOnly
                 = Some [mkDeparture 500 "M101" 0 2])
    by (vm_compute; reflexivity).
  destruct (compact3 feedHolidayOnly) as [snap|] eqn:Hc; [|discriminate Hrun].
  simpl in Hrun. injection Hrun as Hrun.
  exists snap. split; [reflexivity|].
  split; [rewrite Hrun; left|].
  assert (Hplain : plainIds feedHolidayOnly)
    by (apply (bool_decide_unpack _); vm_compute; exact I).
  intros snap' sid dir d [= <-] Hd.
  destruct (serviceType_encoding feedHolidayOnly snap sid dir d Hplain Hc Hd)
    as (_ & st & trip & Hst & Htrip & _ & Hn & _ & Hcal & Hnone).
  exists st, trip. do 3 (split; [done|]).
  split; [apply Hcal|apply Hnone].
Defined.



Lemma holidays_exceptions_iff cds date inner sid e :
  holidays cds !! date = Some inner →
  (inner !! sid = Some e
   ↔ ∃ cd, lastForDateAndService cd cds ∧ cd_date cd = date
           ∧ cd_service_id cd = sid ∧ e = exceptionOfRow cd).
Proof.
  intros Hd. split; [by apply holidays_origin|].
  intros (cd & Hlast & <- & <- & ->).
  destruct (holidays_last _ _ Hlast) as (inner' & Hd' & Hs).
  rewrite Hd in Hd'. by injection Hd' as <-.
Qed.



Lemma hasWeekdayRemoved3_iff cal cds date inner :
  holidays cds !! date = Some inner →
  hasWeekdayRemoved3 (services cal) inner ↔ removesWeekday cal cds date.
Proof.
  intros Hd. unfold hasWeekdayRemoved3, removesWeekday.
  rewrite Exists_exists. split.
  - intros ([sid e] & Hin & Ht & Hs). simpl in *.
    apply elem_of_map_to_list in Hin.
    apply (holidays_exceptions_iff _ _ _ _ _ Hd) in Hin
      as (cd & Hlast & Hdate & <- & ->).
    destruct (services cal !! cd_service_id cd) as [svc|] eqn:Hsvc;
      [|discriminate]. simpl in Hs. injection Hs as Hs.
    exists cd, svc. auto.
  - intros (cd & svc & Hlast & Hdate & Ht & Hsvc & Hw).
    exists (cd_service_id cd, exceptionOfRow cd). split.
    + apply elem_of_map_to_list, (holidays_exceptions_iff _ _ _ _ _ Hd). eauto.
    + simpl. rewrite Hsvc. simpl. by rewrite Hw.
Qed.







(** Where an exception record is followed by another one for the same
    service and date, the last one counts: the addition of H1 is undone by
    the removal that follows it, and the date is left out. *)
Lemma compactHolidays3_last_record :
  compactHolidays3 (services []) (holidays exceptionsRepeated) !! "20260119"
  = None
  ∧ holidayOverride_spec [] exceptionsRepeated "20260119" = Some (JNum 2).
Proof. split; vm_compute; reflexivity. Qed.


(** X21. A date that the three-way script maps to 1, the weekend
    schedule, is a date that the first script flags [true]. *)
Theorem weekend_override_flagged cal cds date :
  compactHolidays3 (services cal) (holidays cds) !! date = Some (JNum 1) →
  compactHolidays (holidays cds) !! date = Some (JBool true).
Proof.
  unfold compactHolidays3. rewrite lookup_omap.
  destruct (holidays cds !! date) as [inner|] eqn:Hd; [|discriminate].
  simpl. case_decide; [discriminate|]. case_decide as Hrem; [|discriminate].
  intros _. apply (hasWeekdayRemoved3_iff cal cds date inner Hd) in Hrem
    as (cd & svc & Hlast & Hdate & Ht & _).
  apply compactHolidays_true_iff. eauto.
Qed.

Lemma weekend_override_flagged_witness :
  compactHolidays (holidays (calendarDates feedHolidayOnly)) !! "20260101"
  = Some (JBool true).
Proof.
  apply (weekend_override_flagged (calendar feedHolidayOnly)).
  vm_compute. reflexivity.
Defined.

End ThreeWayFacts.

(** * The two compactor scripts compared *)

Section ScriptsCompared.

Local Open Scope list_scope.

Implicit Types (x y : Entry) (l k : list Entry).

Lemma insertByTime_same x x' l l' :
  sameEntry x x' → Forall2 sameEntry l l' →
  Forall2 sameEntry (insertByTime x l) (insertByTime x' l').
Proof.
  intros Hx Hl. induction Hl as [|y y' l l' Hy Hl IH]; simpl.
  - constructor; [done|constructor].
  - assert (Htx : t x = t x') by apply Hx.
    assert (Hty : t y = t y') by apply Hy.
    destruct (decide (t x ≤ t y)), (decide (t x' ≤ t y')); try lia.
    + constructor; [done|]. by constructor.
    + by constructor.
Qed.

Lemma sortByTime_same l l' :
  Forall2 sameEntry l l' → Forall2 sameEntry (sortByTime l) (sortByTime l').
Proof.
  induction 1 as [|x x' l l' Hx Hl IH]; [constructor|].
  unfold sortByTime in *. simpl. by apply insertByTime_same.
Qed.

Lemma dedupeFrom_same prev prev' l l' :
  option_Forall2 sameEntry prev prev' → Forall2 sameEntry l l' →
  Forall2 sameEntry (dedupeFrom prev l) (dedupeFrom prev' l').
Proof.
  intros Hp Hl. revert prev prev' Hp.
  induction Hl as [|x x' l l' Hx Hl IH]; intros prev prev' Hp; [constructor|].
  simpl. specialize (IH (Some x) (Some x') (Some_Forall2 _ _ _ Hx)).
  destruct Hp as [p p' Hp|]; [|by constructor].
  destruct Hx as (Htx & Hnx & Hrest), Hp as (Htp & Hnp & _).
  rewrite Htx, Hnx, Htp, Hnp.
  case_bool_decide; simpl; [|done].
  constructor; [|done]. by split.
Qed.

Lemma dedupe_sort_same l l' :
  Forall2 sameEntry l l' →
  Forall2 sameEntry (dedupe (sortByTime l)) (dedupe (sortByTime l')).
Proof.
  intros Hl. rewrite !dedupe_dedupeFrom.
  apply dedupeFrom_same; [constructor|by apply sortByTime_same].
Qed.

Lemma compactEntry_same x x' :
  sameEntry x x' → sameTuple (compactEntry x) (compactEntry3 x').
Proof.
  intros (Ht & Hn & Hr & _ & service & Hs & Hs').
  unfold sameTuple. simpl. rewrite Hs, Hs', Hr, serviceCode3.
  do 3 (split; [done|]).
  destruct service as [svc|]; simpl;
    [destruct (weekday svc); [|destruct (weekend svc)]|];
    vm_compute; intuition congruence.
Qed.

Lemma push_same dir x x' (b b' : Buckets Entry) :
  sameEntry x x' → sameBuckets b b' → sameBuckets (push dir x b) (push dir x' b').
Proof.
  intros Hx [Hn Hs]. destruct dir; split; simpl; try done;
    (apply Forall2_app; [done|]); (constructor; [done|constructor]).
Qed.

Lemma processStopTime_same feed schedule schedule' st :
  sameSchedule schedule schedule' →
  option_Forall2 sameSchedule
    (processStopTime feed schedule st)
    (processStopTimeWith classify3 feed schedule' st).
Proof.
  intros Hsame. unfold processStopTime, processStopTimeWith.
  destruct (tripInfo (trips feed) !! st_trip_id st) as [trip|];
    [|by constructor].
  destruct (stopToStation (stops feed) !! st_stop_id st) as [sid0|];
    [|by constructor].
  case_decide; [by constructor|].
  destruct (parseMinutes (st_departure_time st)) as [minutes|];
    [|constructor].
  simpl. constructor. intros sid.
  destruct (decide (sid0 = sid)) as [->|Hne].
  - rewrite !lookup_insert_eq. constructor. apply push_same.
    + unfold sameEntry. simpl. do 4 (split; [done|]). eauto.
    + destruct (Hsame sid) as [b b' Hb|]; simpl; [done|].
      split; constructor.
  - rewrite !lookup_insert_ne by done. apply Hsame.
Qed.

Lemma forEachStopTime_same feed sts schedule schedule' :
  sameSchedule schedule schedule' →
  option_Forall2 sameSchedule
    (forEachStopTime feed sts schedule)
    (forEachStopTimeWith classify3 feed sts schedule').
Proof.
  revert schedule schedule'.
  induction sts as [|st sts IH]; intros schedule schedule' Hsame;
    [by constructor|].
  simpl. destruct (processStopTime_same feed _ _ st Hsame) as [s2 s3 Hs|];
    simpl; [by apply IH|constructor].
Qed.

(** X22. For a feed whose identifiers are plain keys and whose records
    that are not skipped carry a clock time, both scripts emit a document;
    the two schedules have the same stations, and for every station and
    direction buckets of the same length whose tuples agree position by
    position on the minute, the train number and the route type; the
    service type is 0 in both or in neither, and where the first script
    writes 1 the three-way script writes 1 or 2; the validity dates are
    the same. *)
Theorem scripts_agree_but_service_type feed :
  plainIds feed → clockTimes feed →
  ∃ snap snap3,
    compact feed = Some snap ∧ compact3 feed = Some snap3
    ∧ (∀ sid, is_Some (snap_schedule snap !! sid)
              ↔ is_Some (snap_schedule snap3 !! sid))
    ∧ (∀ sid dir, Forall2 sameTuple (snapshotBucket snap sid dir)
                                    (snapshotBucket snap3 sid dir))
    ∧ validFrom snap = validFrom snap3 ∧ validTo snap = validTo snap3.
Proof.
  intros _ Hclock.
  destruct (compact_defined feed Hclock) as [snap Hc].
  destruct (compact3_defined feed Hclock) as [snap3 Hc3].
  exists snap, snap3. do 2 (split; [done|]).
  revert Hc Hc3. unfold compact, compact3.
  assert (Hsame : sameSchedule ∅ ∅)
    by (intros sid; rewrite lookup_empty; constructor).
  destruct (forEachStopTime_same feed (stopTimes feed) ∅ ∅ Hsame)
    as [s2 s3 Hs|]; simpl; [|discriminate].
  intros [= <-] [= <-]. simpl.
  split; [|split; [|done]].
  - intros sid. unfold compactSchedule, compactSchedule3, sortAndDedupe.
    rewrite !lookup_fmap.
    destruct (Hs sid) as [b b' _|]; simpl; [|done].
    split; eauto.
  - intros sid dir. unfold snapshotBucket, compactSchedule, compactSchedule3,
      sortAndDedupe. simpl. rewrite !lookup_fmap.
    destruct (Hs sid) as [b b' [Hn Hso]|]; simpl; [|constructor].
    destruct dir; simpl; apply Forall2_fmap;
      (eapply Forall2_impl; [apply dedupe_sort_same; eassumption|]);
      intros x x'; apply compactEntry_same.
Qed.

Lemma scripts_agree_but_service_type_witness :
  ∃ snap snap3,
    compact feedHolidayOnly = Some snap
    ∧ compact3 feedHolidayOnly = Some snap3
    ∧ Forall2 sameTuple (snapshotBucket snap "sf" northbound)
                        (snapshotBucket snap3 "sf" northbound).
Proof.
  destruct (scripts_agree_but_service_type feedHolidayOnly)
    as (snap & snap3 & Hc & Hc3 & _ & Hsame & _).
  - apply (bool_decide_unpack _). vm_compute. exact I.
  - apply (bool_decide_unpack _). vm_compute. exact I.
  - exists snap, snap3. split; [exact Hc|]. split; [exact Hc3|].
    apply Hsame.
Defined.

End ScriptsCompared.

(** * Properties of the feed reader and of the trip table *)

Section FeedReader.

Local Open Scope list_scope.

Lemma fillRow_other headers i values (obj : gmap string string) k :
  k ∉ headers → fillRow headers i values obj !! k = obj !! k.
Proof.
  revert i obj. induction headers as [|h hs IH]; intros i obj Hk; [done|].
  apply not_elem_of_cons in Hk as [Hne Hk]. simpl.
  rewrite IH by done. unfold setField. case_decide; [done|].
  by rewrite lookup_insert_ne.
Qed.

Lemma fillRow_last h1 k h2 i values (obj : gmap string string) :
  k ≠ "__proto__" → k ∉ h2 →
  fillRow (h1 ++ k :: h2) i values obj !! k
  = Some (default "" (values !! (i + length h1)%nat)).
Proof.
  intros Hproto Hk. revert i obj. induction h1 as [|h h1 IH]; intros i obj; simpl.
  - rewrite fillRow_other by done. unfold setField.
    rewrite decide_False by done. rewrite lookup_insert_eq.
    by replace (i + 0)%nat with i by lia.
  - rewrite IH. by replace (S i + length h1)%nat with (i + S (length h1))%nat by lia.
Qed.

Lemma fillRow_dom headers i values (obj : gmap string string) :
  dom (fillRow headers i values obj)
  = list_to_set (filter (λ h, h ≠ "__proto__") headers) ∪ dom obj.
Proof.
  revert i obj. induction headers as [|h hs IH]; intros i obj; simpl.
  - by rewrite (left_id_L ∅ (∪)).
  - rewrite IH, filter_cons. unfold setField.
    destruct (decide (h = "__proto__")) as [Hp|Hp].
    + by rewrite decide_False by (intros Hne; by apply Hne).
    + rewrite decide_True by done. rewrite dom_insert_L. simpl.
      by rewrite (assoc_L (∪)),
        (comm_L (∪) (list_to_set (filter (λ h, h ≠ "__proto__") hs)) {[h]}).
Qed.

Lemma trim_byteOrderMark content :
  trim (byteOrderMark ++ content) = trim content.
Proof. reflexivity. Qed.

(** X23. [parseCSV] returns one row per line after the first, the text
    being trimmed of its white space first, a byte order mark included;
    the keys of every row are the names of the header line other than
    [__proto__]; such a name is mapped to the field of the line at the
    position of the last header column of that name, and to the empty
    string when the line has no field there. *)
Theorem parseCSV_rows content first lines :
  split newline (trim content) = first :: lines →
  length (parseCSV content) = length lines
  ∧ parseCSV (byteOrderMark ++ content) = parseCSV content
  ∧ ∀ j line, lines !! j = Some line →
      ∃ row, parseCSV content !! j = Some row
             ∧ dom row = list_to_set (filter (λ h, h ≠ "__proto__")
                                             (split "," first))
             ∧ ∀ h1 k h2, split "," first = h1 ++ k :: h2 → k ∉ h2 →
                 k ≠ "__proto__" →
                 row !! k = Some (default "" (split "," line !! length h1)).
Proof.
  intros Hsplit. unfold parseCSV. rewrite trim_byteOrderMark, Hsplit.
  split; [by rewrite length_fmap|]. split; [done|].
  intros j line Hline. eexists. split.
  { by rewrite list_lookup_fmap, Hline. }
  split.
  { by rewrite fillRow_dom, dom_empty_L, (right_id_L ∅ (∪)). }
  intros h1 k h2 Hh Hk Hproto. rewrite Hh. by rewrite fillRow_last.
Qed.

Lemma parseCSV_rows_witness :
  ∃ row, parseCSV (byteOrderMark ++ "a,b,a" ++ String newline "1,2"
                     ++ String newline "")%string
           !! 0%nat = Some row
         ∧ row !! "a" = Some "" ∧ row !! "b" = Some "2".
Proof.
  destruct (parseCSV_rows
              ("a,b,a" ++ String newline "1,2" ++ String newline "")%string
              "a,b,a" ["1,2"] eq_refl) as (_ & Hbom & Hrows).
  destruct (Hrows 0%nat "1,2" eq_refl) as (row & Hrow & _ & Hcell).
  exists row. split; [rewrite <- Hrow; by rewrite <- Hbom|]. split.
  - apply (Hcell ["a"; "b"] "a" []); [reflexivity| |discriminate].
    apply not_elem_of_nil.
  - apply (Hcell ["a"] "b" ["a"]); [reflexivity| |discriminate].
    intros Hin. apply list_elem_of_singleton in Hin. discriminate Hin.
Defined.

Lemma tripInfo_snoc trips row :
  tripInfo (trips ++ [row])
  = <[t_trip_id row :=
        {| serviceId := t_service_id row;
           direction := parseInt (t_direction_id row);
           headsign := t_trip_headsign row;
           routeId := t_route_id row;
           trainNum := t_trip_short_name row |}]> (tripInfo trips).
Proof. unfold tripInfo. by rewrite foldl_snoc. Qed.

(** X24. Where the trip identifiers of the rows and the identifier
    looked up are plain keys, the trip table gives nothing for the
    identifier exactly when no row carries it, and when several rows carry
    it the table gives the last of them. *)
Theorem tripInfo_last_row trips k :
  Forall (λ row, plainKey (t_trip_id row)) trips → plainKey k →
  (tripInfo trips !! k = None ↔ ∀ row, row ∈ trips → t_trip_id row ≠ k)
  ∧ ∀ l1 row l2,
      trips = l1 ++ row :: l2 → t_trip_id row = k →
      Forall (λ later, t_trip_id later ≠ k) l2 →
      tripInfo trips !! k
      = Some {| serviceId := t_service_id row;
                direction := parseInt (t_direction_id row);
                headsign := t_trip_headsign row;
                routeId := t_route_id row;
                trainNum := t_trip_short_name row |}.
Proof.
  intros _ _. split.
  - induction trips as [|row trips IH] using rev_ind.
    { split; [intros _ row Hrow; by apply elem_of_nil in Hrow|done]. }
    rewrite tripInfo_snoc.
    destruct (decide (t_trip_id row = k)) as [Hk|Hk].
    + rewrite Hk, lookup_insert_eq. split; [done|]. intros Hall.
      exfalso. apply (Hall row); [|done].
      rewrite elem_of_app, list_elem_of_singleton. auto.
    + rewrite lookup_insert_ne by done. rewrite IH. split.
      * intros Hall row' Hrow'.
        apply elem_of_app in Hrow' as [Hrow'|Hrow']; [by apply Hall|].
        by apply list_elem_of_singleton in Hrow' as ->.
      * intros Hall row' Hrow'. apply Hall. rewrite elem_of_app. auto.
  - intros l1 row l2 -> <- Hl2. unfold tripInfo.
    by apply (fill_last t_trip_id
                (λ t, {| serviceId := t_service_id t;
                         direction := parseInt (t_direction_id t);
                         headsign := t_trip_headsign t;
                         routeId := t_route_id t;
                         trainNum := t_trip_short_name t |})).
Qed.

Lemma tripInfo_last_row_witness :
  tripInfo (trips feedDangling) !! "T2"
  = Some (mkTripInfo "WE" (Some 1) "SJ" "L9" "222").
Proof.
  assert (Hrows : Forall (λ row, plainKey (t_trip_id row)) (trips feedDangling))
    by (apply (bool_decide_unpack _); vm_compute; exact I).
  assert (Hk : plainKey "T2")
    by (apply (bool_decide_unpack _); vm_compute; exact I).
  apply (proj2 (tripInfo_last_row (trips feedDangling) "T2" Hrows Hk)
           [mkTrip "T1" "WD" "0" "SF" "L1" "101"]
           (mkTrip "T2" "WE" "1" "SJ" "L9" "222") []).
  - reflexivity.
  - reflexivity.
  - constructor.
Defined.

End FeedReader.

(** * The query engine on the document of the first script *)

Section QueryOnSnapshot.

Local Open Scope list_scope.

(** X25. On the document of [process-gtfs.js] a query for the modified
    service, filter 2, returns nothing for any pair of stations and any
    cursor: that script writes no tuple of service type 2. *)
Theorem modified_query_empty feed snap originId destId dir now :
  compact feed = Some snap →
  filterTrainsByDestination (snapshotBucket snap originId dir)
                            (snapshotBucket snap destId dir) 2 now = [].
Proof.
  intros Hc. apply filterTrainsByDestination_nil_when.
  intros d Hd Hsvc _ _ _.
  destruct (snapshotBucket_origin _ _ _ _ _ Hc Hd) as (st & e & _ & _ & ->).
  simpl in Hsvc. by case_decide.
Qed.

Lemma modified_query_empty_witness :
  ∃ snap, compact feedHolidayOnly = Some snap
          ∧ filterTrainsByDestination (snapshotBucket snap "sf" northbound)
              (snapshotBucket snap "sf" northbound) 2 0 = [].
Proof.
  destruct (compact feedHolidayOnly) as [snap|] eqn:Hc;
    [|vm_compute in Hc; discriminate Hc].
  exists snap. split; [reflexivity|].
  exact (modified_query_empty feedHolidayOnly snap "sf" "sf" northbound 0 Hc).
Defined.

(** X26. For a feed whose identifiers are plain keys and whose records
    that are not skipped carry a clock time, the script emits a document
    in which every bucket is ascending in the minute and no two
    neighbouring tuples share both the minute and the train number; hence
    the result of a query between two stations of the document is
    ascending. *)
Theorem emitted_buckets_ordered feed :
  plainIds feed → clockTimes feed →
  ∃ snap,
    compact feed = Some snap
    ∧ ∀ sid dir,
        Sorted minute_le (snapshotBucket snap sid dir)
        ∧ Sorted distinctTuple (snapshotBucket snap sid dir)
        ∧ ∀ destId svc now,
            Sorted minute_le
              (filterTrainsByDestination (snapshotBucket snap sid dir)
                 (snapshotBucket snap destId dir) svc now).
Proof.
  intros _ Hclock. destruct (compact_defined feed Hclock) as [snap Hc].
  exists snap. split; [done|]. intros sid dir.
  split; [by eapply snapshotBucket_sorted|].
  split; [by eapply snapshotBucket_neighbours|].
  intros destId svc now. apply Sorted_minute_filter.
  by eapply snapshotBucket_sorted.
Qed.

Lemma emitted_buckets_ordered_witness :
  ∃ snap, compact feedRepeatedTrip = Some snap
          ∧ Sorted minute_le (snapshotBucket snap "sf" northbound).
Proof.
  destruct (emitted_buckets_ordered feedRepeatedTrip)
    as (snap & Hc & Hsorted).
  - apply (bool_decide_unpack _). vm_compute. exact I.
  - apply (bool_decide_unpack _). vm_compute. exact I.
  - exists snap. split; [exact Hc|]. apply Hsorted.
Defined.

(** X27. For a valid date whose classified instant has the same date in
    UTC and in local time, in a zone whose offset is the same one day
    earlier and for a year of four digits, [getServiceType] looks up the
    local date of the service day in the holiday map (2 gives 'modified',
    1 gives 'weekend') and otherwise answers by the weekday of that date. *)
Theorem getServiceType_local_rule tz date holidays :
  let now := if decide (getHours tz date < 3) then date - msPerDay else date in
  Z.abs date ≤ 8640000000000000 →
  Z.abs now ≤ 8640000000000000 →
  tz now = tz date →
  now / msPerDay = localTime tz now / msPerDay →
  0 ≤ (civilFromDays (now / msPerDay)).1.1 ≤ 9999 →
  getServiceType tz date holidays
  = Some (resolveServiceDay_spec tz date holidays).
Proof. apply getServiceType_agrees. Qed.

Lemma getServiceType_local_rule_witness :
  getServiceType (fixedZone (-8 * msPerHour))
    (localInstant (-8 * msPerHour) 2026 1 19 1 0) testHolidays
  = Some "weekend".
Proof.
  rewrite (getServiceType_local_rule (fixedZone (-8 * msPerHour))
             (localInstant (-8 * msPerHour) 2026 1 19 1 0) testHolidays).
  - vm_compute. reflexivity.
  - vm_compute. discriminate.
  - vm_compute. discriminate.
  - vm_compute. reflexivity.
  - vm_compute. reflexivity.
  - vm_compute. split; discriminate.
Defined.

End QueryOnSnapshot.
